(** * mise-action: the main step ([src/index.ts]) as a state-and-exception program

    The action is a straight-line script over the GitHub Actions toolkit.
    Its embedding threads an explicit [World] (the process environment, the
    entries handed to [core.addPath], the step outputs, the saved state, the
    files the action wrote, the failure message, and the chronological log of
    toolkit calls) through a small state-and-exception monad.  What the outside
    world answers (inputs, subprocess results, the cache service, the file
    system, the JSON parser) is read from a [Platform] record. *)

From Stdlib Require Import ZArith Ascii String.
From stdpp Require Import gmap strings list fin_maps pretty.

Open Scope string_scope.
Open Scope list_scope.

(** ** Values of the script *)

(** A thrown JavaScript value: [err instanceof Error] holds for [ErrorObj]
    only. *)
Inductive Thrown : Type :=
  | ErrorObj (message : string)
  | NonError (payload : string).

(** Values handed to [core.setOutput] and [core.saveState]. *)
Inductive Value : Type :=
  | VBool (b : bool)
  | VStr (s : string).

(** [exec.ExecOutput]. *)
Record ExecOutput : Type := mkExecOutput {
  exitCode : Z;
  stdout : string;
  stderr : string
}.

(** Outcome of a call: a returned value or a thrown one. *)
Inductive Res (A : Type) : Type :=
  | Ok (a : A)
  | Throw (t : Thrown).
Arguments Ok {A} a.
Arguments Throw {A} t.

(** Calls into the toolkit, Node and the subprocess layer, as logged. *)
Inductive Event : Type :=
  | EStartGroup (name : string)
  | EEndGroup
  | EInfo (msg : string)
  | EExportVariable (k v : string)
  | EAddPath (p : string)
  | ESetOutput (k : string) (v : Value)
  | ESaveState (k : string) (v : Value)
  | ESetFailed (msg : string)
  | EHashFiles (patterns : string)
  | ERestoreCache (paths : list string) (key : string)
  | EMkdir (p : string)
  | EExec (cmd : string) (args : list string)
  | EGetExecOutput (cmd : string) (args : list string) (cwd : string)
  | EWriteFile (p body encoding : string).

(** The mutable surroundings of one run.  [env] is [process.env], its PATH
    entry included; [added_paths] lists the entries handed to
    [core.addPath], oldest first; [files] is the file system as far as the
    script writes it. *)
Record World : Type := mkWorld {
  env : gmap string string;
  added_paths : list string;
  outputs : gmap string Value;
  saved : gmap string Value;
  files : gmap string string;
  failure : option string;
  log : list Event
}.

(** What the surroundings answer.  Each field is the result of the call of
    the same name, as a function of its arguments.  [subprocess_output] is
    what a spawned process ends with (a thrown value when it cannot be
    spawned); [exec_failed_message] is the message of the Error with which
    the toolkit rejects a process that ended with the given non-zero code
    (it names the resolved tool and the code); [fs_failed_write_leaves] is
    what a path holds once a write to it has failed, given what it held
    before: the file is opened for writing, hence created or truncated,
    before any byte is written. *)
Record Platform : Type := mkPlatform {
  getInput : string -> string;
  getBooleanInput : string -> Res bool;
  process_cwd : string;
  process_platform : string;
  os_arch : string;
  path_delimiter : ascii;
  path_join : string -> string -> string;
  (* [miseDir] of ./utils: the tool's data directory, taken as a function
     of [process.env] *)
  miseDir : gmap string string -> string;
  glob_hashFiles : string -> Res string;
  cache_restoreCache : list string -> string -> Res (option string);
  fs_mkdir : string -> Res unit;
  fs_writeFile : string -> string -> Res unit;
  fs_failed_write_leaves : string -> string -> option string -> option string;
  exec_exec : string -> list string -> Res Z;
  subprocess_output : string -> list string -> string -> Res ExecOutput;
  exec_failed_message : string -> Z -> string;
  JSON_parse : string -> Res (list (string * string))
}.

(** [exec.getExecOutput(cmd, args, { cwd })]: without [ignoreReturnCode]
    the toolkit rejects when the process ends with a non-zero code, so an
    output that is handed back has exit code 0. *)
Definition exec_getExecOutput (P : Platform) (cmd : string)
    (args : list string) (cwd : string) : Res ExecOutput :=
  match subprocess_output P cmd args cwd with
  | Ok out =>
      if Z.eqb (exitCode out) 0 then Ok out
      else Throw (ErrorObj (exec_failed_message P cmd (exitCode out)))
  | Throw t => Throw t
  end.

(** ** The monad *)

Definition M (A : Type) : Type := World -> Res A * World.

Definition ret {A} (a : A) : M A := fun w => (Ok a, w).

Definition throw {A} (t : Thrown) : M A := fun w => (Throw t, w).

Definition bind {A B} (m : M A) (k : A -> M B) : M B :=
  fun w =>
    match m w with
    | (Ok a, w') => k a w'
    | (Throw t, w') => (Throw t, w')
    end.

(** [lift r]: an outcome decided by the surroundings. *)
Definition lift {A} (r : Res A) : M A := fun w => (r, w).

(** [try { m } finally { fin }] for a [fin] that does not throw. *)
Definition try_finally {A} (m : M A) (fin : M unit) : M A :=
  fun w =>
    let '(r, w1) := m w in
    let '(_, w2) := fin w1 in
    (r, w2).

(** [try { m } catch (err) { h err }]. *)
Definition try_catch {A} (m : M A) (h : Thrown -> M A) : M A :=
  fun w =>
    match m w with
    | (Ok a, w') => (Ok a, w')
    | (Throw t, w') => h t w'
    end.

Declare Scope script_scope.
Delimit Scope script_scope with script.
Notation "x <- m ;; k" := (bind m (fun x => k))
  (at level 100, m at next level, right associativity) : script_scope.
Notation "m ;;; k" := (bind m (fun _ => k))
  (at level 100, right associativity) : script_scope.
Open Scope script_scope.

Fixpoint for_each {A} (f : A -> M unit) (l : list A) : M unit :=
  match l with
  | [] => ret tt
  | x :: rest => f x ;;; for_each f rest
  end.

(** ** World updates *)

Definition emit (e : Event) : M unit :=
  fun w => (Ok tt,
    mkWorld (env w) (added_paths w) (outputs w) (saved w) (files w)
            (failure w) (log w ++ [e])).

Definition set_env (k v : string) : M unit :=
  fun w => (Ok tt,
    mkWorld (<[k := v]> (env w)) (added_paths w) (outputs w) (saved w)
            (files w) (failure w) (log w)).

Definition push_path (p : string) : M unit :=
  fun w => (Ok tt,
    mkWorld (env w) (added_paths w ++ [p]) (outputs w) (saved w) (files w)
            (failure w) (log w)).

Definition set_output (k : string) (v : Value) : M unit :=
  fun w => (Ok tt,
    mkWorld (env w) (added_paths w) (<[k := v]> (outputs w)) (saved w)
            (files w) (failure w) (log w)).

Definition set_saved (k : string) (v : Value) : M unit :=
  fun w => (Ok tt,
    mkWorld (env w) (added_paths w) (outputs w) (<[k := v]> (saved w))
            (files w) (failure w) (log w)).

Definition set_file (p body : string) : M unit :=
  fun w => (Ok tt,
    mkWorld (env w) (added_paths w) (outputs w) (saved w)
            (<[p := body]> (files w)) (failure w) (log w)).

(** The path [p] holds [c] afterwards, or nothing when [c] is [None]. *)
Definition leave_file (p : string) (c : option string) : M unit :=
  fun w => (Ok tt,
    mkWorld (env w) (added_paths w) (outputs w) (saved w)
            (partial_alter (fun _ => c) p (files w)) (failure w) (log w)).

Definition set_failure (msg : string) : M unit :=
  fun w => (Ok tt,
    mkWorld (env w) (added_paths w) (outputs w) (saved w) (files w)
            (Some msg) (log w)).

Definition get_world : M World := fun w => (Ok w, w).

(** ** JavaScript strings *)

(** Truthiness of a string: only the empty string is falsy. *)
Definition truthy (s : string) : bool :=
  match s with
  | EmptyString => false
  | String _ _ => true
  end.

(** [a || b] on strings. *)
Definition or_else (a b : string) : string := if truthy a then a else b.

(** [s.split(d)] for a one-character separator [d]: the pieces between the
    occurrences of [d], the empty ones included. *)
Fixpoint split_on (d : ascii) (s : string) : list string :=
  match s with
  | EmptyString => [EmptyString]
  | String c rest =>
      if Ascii.eqb c d then EmptyString :: split_on d rest
      else match split_on d rest with
           | [] => [String c EmptyString]
           | piece :: pieces => String c piece :: pieces
           end
  end.

(** Whether the character [d] occurs in [s]. *)
Fixpoint occurs (d : ascii) (s : string) : bool :=
  match s with
  | EmptyString => false
  | String c rest => Ascii.eqb c d || occurs d rest
  end.

(** [args.join(sep)]. *)
Fixpoint join (sep : string) (l : list string) : string :=
  match l with
  | [] => ""
  | [x] => x
  | x :: rest => x +:+ sep +:+ join sep rest
  end.

Definition nl : string := String (ascii_of_nat 10) EmptyString.

(** Truthiness of [process.env[k]] and of an optional cache key:
    [undefined] and the empty string are falsy. *)
Definition truthy_opt (o : option string) : bool :=
  match o with
  | Some s => truthy s
  | None => false
  end.

(** ** The toolkit ([@actions/core]) *)

Module core.

Definition startGroup (name : string) : M unit := emit (EStartGroup name).

Definition endGroup : M unit := emit EEndGroup.

Definition info (msg : string) : M unit := emit (EInfo msg).

Definition exportVariable (k v : string) : M unit :=
  emit (EExportVariable k v) ;;; set_env k v.

(** [core.addPath(p)]: the entry is handed to the runner and put in front
    of the PATH of the process,
    [process.env.PATH = p + path.delimiter + process.env.PATH]
    (an undefined PATH reads as the text undefined). *)
Definition addPath (delimiter : ascii) (p : string) : M unit :=
  emit (EAddPath p) ;;;
  push_path p ;;;
  w <- get_world ;;
  set_env "PATH"
    (p +:+ String delimiter EmptyString
       +:+ default "undefined" (env w !! "PATH")).

Definition setOutput (k : string) (v : Value) : M unit :=
  emit (ESetOutput k v) ;;; set_output k v.

Definition saveState (k : string) (v : Value) : M unit :=
  emit (ESaveState k v) ;;; set_saved k v.

Definition setFailed (msg : string) : M unit :=
  emit (ESetFailed msg) ;;; set_failure msg.

(** [core.group(name, fn)]: the group is closed whether [fn] returns or
    throws. *)
Definition group {A} (name : string) (fn : M A) : M A :=
  startGroup name ;;; try_finally fn endGroup.

End core.

(** ** The script *)

Section Script.

Variable P : Platform.

(** *** Calls answered by the surroundings *)

Definition hashFiles (patterns : string) : M string :=
  emit (EHashFiles patterns) ;;; lift (glob_hashFiles P patterns).

Definition restoreCache (paths : list string) (key : string)
  : M (option string) :=
  emit (ERestoreCache paths key) ;;; lift (cache_restoreCache P paths key).

Definition mkdir (p : string) : M unit :=
  emit (EMkdir p) ;;; lift (fs_mkdir P p).

Definition exec (cmd : string) (args : list string) : M Z :=
  emit (EExec cmd args) ;;; lift (exec_exec P cmd args).

Definition getExecOutput (cmd : string) (args : list string) (cwd : string)
  : M ExecOutput :=
  emit (EGetExecOutput cmd args cwd) ;;; lift (exec_getExecOutput P cmd args cwd).

(** [fs.promises.writeFile(p, body, { encoding: 'utf8' })]: the file holds
    [body] once the call returns; when the call throws, the path holds what
    the failed write left there. *)
Definition fs_promises_writeFile (p body : string) : M unit :=
  emit (EWriteFile p body "utf8") ;;;
  w <- get_world ;;
  match fs_writeFile P p body with
  | Ok _ => set_file p body
  | Throw t =>
      leave_file p (fs_failed_write_leaves P p body (files w !! p)) ;;;
      throw t
  end.

(** *** index.ts, bottom up *)

Definition writeFile (p body : string) : M unit :=
  core.group ("Writing " +:+ p)
    (core.info ("Body:" +:+ nl +:+ body) ;;;
     fs_promises_writeFile p body).

Definition mise (args : list string) : M ExecOutput :=
  core.group ("Running mise " +:+ join " " args)
    (let cwd := or_else (getInput P "install_dir") (process_cwd P) in
     getExecOutput "mise" args cwd).

Definition testMise : M ExecOutput := mise ["--version"].
Definition miseInstall : M ExecOutput := mise ["install"].
Definition miseEnv : M ExecOutput := mise ["env"; "--json"].

Definition setEnv (k v : string) : M unit :=
  core.info ("Setting " +:+ k +:+ "=" +:+ v) ;;;
  core.exportVariable k v.

Definition setEnvIfUnset (k v : string) : M unit :=
  w <- get_world ;;
  if negb (truthy_opt (env w !! k)) then setEnv k v else ret tt.

Definition getOS : string :=
  if String.eqb (process_platform P) "darwin" then "macos"
  else process_platform P.

Definition setMiseToml : M unit :=
  let toml := getInput P "mise_toml" in
  if truthy toml then writeFile ".mise.toml" toml else ret tt.

Definition setToolVersions : M unit :=
  let toolVersions := getInput P "tool_versions" in
  if truthy toolVersions then writeFile ".tool-versions" toolVersions
  else ret tt.

Definition getExperimental : bool :=
  let experimentalString := getInput P "experimental" in
  if String.eqb experimentalString "true" then true else false.

Definition setupMise (version : string) : M unit :=
  core.startGroup
    (if truthy version then "Setup mise@" +:+ version else "Setup mise") ;;;
  w <- get_world ;;
  let miseBinDir := path_join P (miseDir P (env w)) "bin" in
  let url :=
    if truthy version
    then "https://mise.jdx.dev/v" +:+ version +:+ "/mise-v" +:+ version
         +:+ "-" +:+ getOS +:+ "-" +:+ os_arch P
    else "https://mise.jdx.dev/mise-latest-" +:+ getOS +:+ "-" +:+ os_arch P
  in
  mkdir miseBinDir ;;;
  exec "curl" ["-fsSL"; url; "--output"; path_join P miseBinDir "mise"] ;;;
  exec "chmod" ["+x"; path_join P miseBinDir "mise"] ;;;
  core.addPath (path_delimiter P) miseBinDir.

(** The glob handed to [glob.hashFiles]. *)
Definition config_globs : string :=
  join nl ["**/.config/mise/config.toml";
           "**/.mise.*.toml";
           "**/.mise.toml";
           "**/.mise/config.toml";
           "**/.tool-versions"].

Definition restoreMiseCache : M unit :=
  core.startGroup "Restoring mise cache" ;;;
  w <- get_world ;;
  let cachePath := miseDir P (env w) in
  fileHash <- hashFiles config_globs ;;
  let prefix := or_else (getInput P "cache_key_prefix") "mise-v0" in
  let primaryKey :=
    prefix +:+ "-" +:+ getOS +:+ "-" +:+ os_arch P +:+ "-" +:+ fileHash in
  cache_save <- lift (getBooleanInput P "cache_save") ;;
  core.saveState "CACHE" (VBool cache_save) ;;;
  core.saveState "PRIMARY_KEY" (VStr primaryKey) ;;;
  core.saveState "MISE_DIR" (VStr cachePath) ;;;
  cacheKey <- restoreCache [cachePath] primaryKey ;;
  core.setOutput "cache-hit" (VBool (truthy_opt cacheKey)) ;;;
  match cacheKey with
  | Some key =>
      if truthy key
      then core.saveState "CACHE_KEY" (VStr key) ;;;
           core.info ("mise cache restored from key: " +:+ key)
      else core.info ("mise cache not found for " +:+ primaryKey)
  | None => core.info ("mise cache not found for " +:+ primaryKey)
  end.

(** The body of the [for ... of Object.entries(envVars)] loop. *)
Definition exportEntry (entry : string * string) : M unit :=
  let '(key, value) := entry in
  if negb (String.eqb key "PATH") then setEnv key value
  else for_each
         (fun pathElement =>
            core.info ("Adding " +:+ pathElement +:+ " to PATH") ;;;
            core.addPath (path_delimiter P) pathElement)
         (split_on (path_delimiter P) value).

Definition setEnvVars : M unit :=
  envOutput <- miseEnv ;;
  core.startGroup "Setting env vars" ;;;
  if Z.eqb (exitCode envOutput) 0
  then envVars <- lift (JSON_parse P (stdout envOutput)) ;;
       for_each exportEntry envVars
  else throw (ErrorObj ("Failed to run mise env: " +:+ stderr envOutput)).

Definition setEnvVarsPreInstall : M unit :=
  core.startGroup "Setting env vars for Mise" ;;;
  setEnvIfUnset "MISE_TRUSTED_CONFIG_PATHS" (process_cwd P) ;;;
  setEnvIfUnset "MISE_YES" "1" ;;;
  setEnvIfUnset "MISE_EXPERIMENTAL" (if getExperimental then "1" else "0").

(** The gate of lines 15-19: restore the cache, or report no hit. *)
Definition cacheGate : M unit :=
  cache <- lift (getBooleanInput P "cache") ;;
  if cache : bool then restoreMiseCache
  else core.setOutput "cache-hit" (VBool false).

(** The gate of lines 25-27. *)
Definition installGate : M unit :=
  install <- lift (getBooleanInput P "install") ;;
  if install : bool then (_ <- miseInstall ;; ret tt) else ret tt.

(** The [try] block of [run]. *)
Definition run_body : M unit :=
  setToolVersions ;;;
  setMiseToml ;;;
  cacheGate ;;;
  (let version := getInput P "version" in
   setupMise version) ;;;
  setEnvVarsPreInstall ;;;
  (_ <- testMise ;; ret tt) ;;;
  installGate ;;;
  setEnvVars.

(** The [catch] clause of [run]. *)
Definition run_handler (err : Thrown) : M unit :=
  match err with
  | ErrorObj message => core.setFailed message
  | NonError _ => throw err
  end.

Definition run : M unit := try_catch run_body run_handler.

(** The statements of the [try] block, in order. *)
Definition stages : list (M unit) :=
  [ setToolVersions;
    setMiseToml;
    cacheGate;
    setupMise (getInput P "version");
    setEnvVarsPreInstall;
    (_ <- testMise ;; ret tt);
    installGate;
    setEnvVars ].

(** The stages before and after the cache stage. *)
Definition config_stages : M unit := setToolVersions ;;; setMiseToml.

Definition after_cache : M unit :=
  setupMise (getInput P "version") ;;;
  setEnvVarsPreInstall ;;;
  (_ <- testMise ;; ret tt) ;;;
  installGate ;;;
  setEnvVars.

(** The stages that run before the environment export. *)
Definition before_export : M unit := for_each id (take 7 stages).

End Script.

(** What [core.addPath] does to [process.env]. *)
Definition prepend_path (d : ascii) (e : gmap string string) (p : string)
  : gmap string string :=
  <["PATH" := p +:+ String d EmptyString
                +:+ default "undefined" (e !! "PATH")]> e.

(** The PATH of the process once the entries [l] have been handed to
    [core.addPath] in order, from what it held before. *)
Definition path_after (d : ascii) (l : list string) (o : option string)
  : option string :=
  foldl (fun o p => Some (p +:+ String d EmptyString +:+ default "undefined" o))
        o l.

(** One turn of the loop of lines 48-57, component by component: what it
    does to [process.env], the entries it hands to [core.addPath], and the
    toolkit calls it makes. *)
Definition entry_env (P : Platform) (entry : string * string)
    (e : gmap string string) : gmap string string :=
  if negb (String.eqb entry.1 "PATH") then <[entry.1 := entry.2]> e
  else foldl (prepend_path (path_delimiter P)) e
         (split_on (path_delimiter P) entry.2).

Definition entry_paths (P : Platform) (entry : string * string) : list string :=
  if negb (String.eqb entry.1 "PATH") then []
  else split_on (path_delimiter P) entry.2.

Definition path_events (pathElement : string) : list Event :=
  [ EInfo ("Adding " +:+ pathElement +:+ " to PATH"); EAddPath pathElement ].

Definition entry_events (P : Platform) (entry : string * string) : list Event :=
  if negb (String.eqb entry.1 "PATH")
  then [ EInfo ("Setting " +:+ entry.1 +:+ "=" +:+ entry.2);
         EExportVariable entry.1 entry.2 ]
  else flat_map path_events (split_on (path_delimiter P) entry.2).

(** The working directory of the [mise] subprocess (line 154). *)
Definition mise_cwd (P : Platform) : string :=
  or_else (getInput P "install_dir") (process_cwd P).

(** What [setEnvVars] logs before it looks at the exit code. *)
Definition dump_prologue (P : Platform) : list Event :=
  [ EStartGroup "Running mise env --json";
    EGetExecOutput "mise" ["env"; "--json"] (mise_cwd P);
    EEndGroup;
    EStartGroup "Setting env vars" ].

(** The key of lines 75-76, for a given hash of the configuration files. *)
Definition primaryKey (P : Platform) (fileHash : string) : string :=
  or_else (getInput P "cache_key_prefix") "mise-v0"
  +:+ "-" +:+ getOS P +:+ "-" +:+ os_arch P +:+ "-" +:+ fileHash.

(** What [restoreMiseCache] logs up to and including the restore call. *)
Definition restore_prologue (P : Platform) (dir fileHash : string)
    (cache_save : bool) : list Event :=
  [ EStartGroup "Restoring mise cache";
    EHashFiles config_globs;
    ESaveState "CACHE" (VBool cache_save);
    ESaveState "PRIMARY_KEY" (VStr (primaryKey P fileHash));
    ESaveState "MISE_DIR" (VStr dir);
    ERestoreCache [dir] (primaryKey P fileHash) ].

(** The saved state once lines 78-80 have run. *)
Definition saved_before_restore (P : Platform) (dir fileHash : string)
    (cache_save : bool) (s : gmap string Value) : gmap string Value :=
  <["MISE_DIR" := VStr dir]>
    (<["PRIMARY_KEY" := VStr (primaryKey P fileHash)]>
       (<["CACHE" := VBool cache_save]> s)).

(** The variables of lines 37-39 with the values they default to. *)
Definition pre_install_defaults (P : Platform) : list (string * string) :=
  [ ("MISE_TRUSTED_CONFIG_PATHS", process_cwd P);
    ("MISE_YES", "1");
    ("MISE_EXPERIMENTAL", if getExperimental P then "1" else "0") ].

(** What [setEnvIfUnset k v] does to [process.env]. *)
Definition set_if_unset (k v : string) (e : gmap string string)
  : gmap string string :=
  if truthy_opt (e !! k) then e else <[k := v]> e.

(** Events that only the cache stage issues. *)
Definition cache_event (e : Event) : bool :=
  match e with
  | EHashFiles _ | ERestoreCache _ _ | ESetOutput _ _ | ESaveState _ _ => true
  | _ => false
  end.

(** A call of [cache.restoreCache]. *)
Definition is_restore (e : Event) : bool :=
  match e with
  | ERestoreCache _ _ => true
  | _ => false
  end.

(** An event of a run that leaves the cache alone: no restore call, and no
    output other than [cache-hit = false]. *)
Definition cache_untouched (e : Event) : Prop :=
  match e with
  | ERestoreCache _ _ => False
  | ESetOutput k v => k = "cache-hit" /\ v = VBool false
  | _ => True
  end.

(** ** Frames: what a computation leaves alone *)

Definition preserves (R : World -> World -> Prop) {A} (m : M A) : Prop :=
  forall w, R w (m w).2.

(** Two frames at once. *)
Definition both (R1 R2 : World -> World -> Prop) : World -> World -> Prop :=
  fun w w' => R1 w w' /\ R2 w w'.

(** A component of the world is left as it was. *)
Definition keeps {X} (f : World -> X) : World -> World -> Prop :=
  fun w w' => f w' = f w.

(** The log grows by events that all satisfy [ok]. *)
Definition logs_only (ok : Event -> Prop) : World -> World -> Prop :=
  fun w w' => exists evs, log w' = log w ++ evs /\ Forall ok evs.

(** ** Concrete surroundings, for running the script *)

Definition dq : string := String (ascii_of_nat 34) EmptyString.

(** The text [{"FOO":"bar","PATH":"/a:/b"}]. *)
Definition sample_dump : string :=
  "{" +:+ dq +:+ "FOO" +:+ dq +:+ ":" +:+ dq +:+ "bar" +:+ dq +:+ ","
      +:+ dq +:+ "PATH" +:+ dq +:+ ":" +:+ dq +:+ "/a:/b" +:+ dq +:+ "}".

(** A macOS runner whose [cache] input, cache service and [mise env] result
    are left open. *)
Definition sample_platform (cache : bool) (restored : Res (option string))
    (envOutput : ExecOutput) : Platform :=
  {| getInput name :=
       if String.eqb name "tool_versions" then "node 20" else "";
     getBooleanInput name :=
       if String.eqb name "cache" then Ok cache
       else if String.eqb name "cache_save" then Ok true
       else if String.eqb name "install" then Ok true
       else Throw (ErrorObj ("Input does not meet YAML 1.2 Core Schema: " +:+ name));
     process_cwd := "/work";
     process_platform := "darwin";
     os_arch := "arm64";
     path_delimiter := ":"%char;
     path_join a b := a +:+ "/" +:+ b;
     miseDir _ := "/home/runner/.local/share/mise";
     glob_hashFiles _ := Ok "0a1b2c";
     cache_restoreCache _ _ := restored;
     fs_mkdir _ := Ok tt;
     fs_writeFile _ _ := Ok tt;
     fs_failed_write_leaves _ _ _ := Some "";
     exec_exec _ _ := Ok 0%Z;
     subprocess_output _ args _ :=
       if bool_decide (args = ["env"; "--json"]) then Ok envOutput
       else Ok (mkExecOutput 0 "" "");
     exec_failed_message cmd code :=
       "The process '" +:+ cmd +:+ "' failed with exit code " +:+ pretty code;
     JSON_parse text :=
       if String.eqb text sample_dump
       then Ok [("FOO", "bar"); ("PATH", "/a:/b")]
       else Throw (ErrorObj "Unexpected token") |}.

Definition good_dump : ExecOutput := mkExecOutput 0 sample_dump "".

Definition bad_dump : ExecOutput := mkExecOutput 1 "" "mise ERROR no config".

(** A world in which nothing has happened yet, with the given environment. *)
Definition fresh_world (e : gmap string string) : World :=
  mkWorld e [] ∅ ∅ ∅ None [].

(** ** Vocabulary of the further properties *)

(** The directory the binary is downloaded into (line 96), for a given
    [process.env]. *)
Definition miseBinDir (P : Platform) (e : gmap string string) : string :=
  path_join P (miseDir P e) "bin".

(** The URL the binary is fetched from (lines 97-99). *)
Definition download_url (P : Platform) (version : string) : string :=
  if truthy version
  then "https://mise.jdx.dev/v" +:+ version +:+ "/mise-v" +:+ version
       +:+ "-" +:+ getOS P +:+ "-" +:+ os_arch P
  else "https://mise.jdx.dev/mise-latest-" +:+ getOS P +:+ "-" +:+ os_arch P.

(** What [setupMise] logs when its three calls return. *)
Definition setup_events (P : Platform) (version : string)
    (e : gmap string string) : list Event :=
  [ EStartGroup
      (if truthy version then "Setup mise@" +:+ version else "Setup mise");
    EMkdir (miseBinDir P e);
    EExec "curl" ["-fsSL"; download_url P version; "--output";
                  path_join P (miseBinDir P e) "mise"];
    EExec "chmod" ["+x"; path_join P (miseBinDir P e) "mise"];
    EAddPath (miseBinDir P e) ].

(** What one [mise] invocation logs. *)
Definition mise_events (P : Platform) (args : list string) : list Event :=
  [ EStartGroup ("Running mise " +:+ join " " args);
    EGetExecOutput "mise" args (mise_cwd P);
    EEndGroup ].

(** The two files of the config writer, each with the input its body is
    taken from. *)
Definition config_file (P : Platform) (p body : string) : Prop :=
  (p = ".tool-versions" /\ body = getInput P "tool_versions") \/
  (p = ".mise.toml" /\ body = getInput P "mise_toml").

(** The calls the script makes: [install] tells whether [mise install] is
    among them. *)
Definition scripted (install : bool) (P : Platform) (e : Event) : Prop :=
  match e with
  | EStartGroup _ | EEndGroup | EInfo _ | ESetFailed _ => True
  | EAddPath _ | EMkdir _ => True
  | EExportVariable k _ => k <> "PATH"
  | ESetOutput k v => k = "cache-hit" /\ exists b, v = VBool b
  | ESaveState k _ => k ∈ ["CACHE"; "PRIMARY_KEY"; "MISE_DIR"; "CACHE_KEY"]
  | EHashFiles patterns => patterns = config_globs
  | ERestoreCache paths _ => exists dir, paths = [dir]
  | EExec cmd _ => cmd = "curl" \/ cmd = "chmod"
  | EGetExecOutput cmd args cwd =>
      cmd = "mise" /\ cwd = mise_cwd P /\
      (args = ["--version"] \/ args = ["env"; "--json"] \/
       (install = true /\ args = ["install"]))
  | EWriteFile p body encoding => encoding = "utf8" /\ config_file P p body
  end.

(** A subprocess call whose output is captured: the only way the script
    runs [mise]. *)
Definition is_captured (e : Event) : bool :=
  match e with
  | EGetExecOutput _ _ _ => true
  | _ => false
  end.

(** The stages before and after the installer. *)
Definition before_install (P : Platform) : M unit :=
  config_stages P ;;; cacheGate P.

Definition after_install (P : Platform) : M unit :=
  setEnvVarsPreInstall P ;;;
  (_ <- testMise P ;; ret tt) ;;;
  installGate P ;;;
  setEnvVars P.

(** A Linux runner on which chosen calls fail. *)
Definition faulty_platform (version : string) (install : Res bool)
    (written : Res unit) (downloaded : Res Z)
    (parsed : Res (list (string * string))) : Platform :=
  {| getInput name :=
       if String.eqb name "tool_versions" then "node 20"
       else if String.eqb name "version" then version
       else if String.eqb name "install_dir" then "/work/app"
       else "";
     getBooleanInput name :=
       if String.eqb name "cache" then Ok false
       else if String.eqb name "install" then install
       else Throw (ErrorObj ("Input does not meet YAML 1.2 Core Schema: " +:+ name));
     process_cwd := "/work";
     process_platform := "linux";
     os_arch := "x64";
     path_delimiter := ":"%char;
     path_join a b := a +:+ "/" +:+ b;
     miseDir _ := "/home/runner/.local/share/mise";
     glob_hashFiles _ := Throw (ErrorObj "glob failed");
     cache_restoreCache _ _ := Ok None;
     fs_mkdir _ := Ok tt;
     fs_writeFile _ _ := written;
     fs_failed_write_leaves _ _ _ := Some "";
     exec_exec cmd _ := if String.eqb cmd "curl" then downloaded else Ok 0%Z;
     subprocess_output _ _ _ := Ok (mkExecOutput 0 "{}" "");
     exec_failed_message cmd code :=
       "The process '" +:+ cmd +:+ "' failed with exit code " +:+ pretty code;
     JSON_parse _ := parsed |}.

(** [P] with one input replaced. *)
Definition with_input (P : Platform) (name value : string) : Platform :=
  {| getInput n := if String.eqb n name then value else getInput P n;
     getBooleanInput := getBooleanInput P;
     process_cwd := process_cwd P;
     process_platform := process_platform P;
     os_arch := os_arch P;
     path_delimiter := path_delimiter P;
     path_join := path_join P;
     miseDir := miseDir P;
     glob_hashFiles := glob_hashFiles P;
     cache_restoreCache := cache_restoreCache P;
     fs_mkdir := fs_mkdir P;
     fs_writeFile := fs_writeFile P;
     fs_failed_write_leaves := fs_failed_write_leaves P;
     exec_exec := exec_exec P;
     subprocess_output := subprocess_output P;
     exec_failed_message := exec_failed_message P;
     JSON_parse := JSON_parse P |}.

(** An event of a run that leaves the state of the post step alone: no
    hash taken, nothing saved. *)
Definition no_cache_state (e : Event) : Prop :=
  match e with
  | EHashFiles _ | ESaveState _ _ | ERestoreCache _ _ => False
  | _ => True
  end.

(** * Properties *)

(** ** Running the monad *)

Lemma bind_ok {A B} (m : M A) (k : A -> M B) w a w' :
  m w = (Ok a, w') -> bind m k w = k a w'.
Proof. intros H. unfold bind. by rewrite H. Qed.

Lemma bind_throw {A B} (m : M A) (k : A -> M B) w t w' :
  m w = (Throw t, w') -> bind m k w = (Throw t, w').
Proof. intros H. unfold bind. by rewrite H. Qed.

Lemma for_each_app {A} (f : A -> M unit) (l1 l2 : list A) w :
  for_each f (l1 ++ l2) w = (for_each f l1 ;;; for_each f l2) w.
Proof.
  revert w. induction l1 as [|x l1 IH]; intros w; simpl.
  - reflexivity.
  - unfold bind in *. destruct (f x w) as [[[]|t] w1]; [|reflexivity].
    apply IH.
Qed.

(** ** Splitting and joining *)

Lemma split_on_nonempty d s : split_on d s <> [].
Proof.
  destruct s as [|c s]; simpl; [done|].
  destruct (Ascii.eqb c d); [done|]. by destruct (split_on d s).
Qed.

Lemma join_push sep c p ps :
  join sep (String c p :: ps) = String c (join sep (p :: ps)).
Proof. destruct ps; reflexivity. Qed.

(** Gluing the pieces back with the separator gives the string that was
    split. *)
Lemma join_split_on d s : join (String d EmptyString) (split_on d s) = s.
Proof.
  induction s as [|c s IH]; [reflexivity|].
  pose proof (split_on_nonempty d s) as Hn.
  cbn [split_on]. destruct (Ascii.eqb_spec c d) as [->|Hne].
  - destruct (split_on d s) as [|p ps]; [done|].
    change (join (String d "") ("" :: p :: ps))
      with (String d (join (String d "") (p :: ps))).
    by rewrite IH.
  - destruct (split_on d s) as [|p ps]; [done|].
    by rewrite join_push, IH.
Qed.

(** No piece contains the separator. *)
Lemma split_on_pieces d s : Forall (fun piece => occurs d piece = false) (split_on d s).
Proof.
  induction s as [|c s IH]; simpl.
  - by repeat constructor.
  - destruct (Ascii.eqb c d) eqn:E.
    + by constructor.
    + destruct (split_on d s) as [|p ps]; [by repeat constructor; simpl; rewrite E|].
      inversion IH; subst. constructor; [|done]. simpl. by rewrite E.
Qed.

Example split_on_two_entries : split_on ":" "/a:/b" = ["/a"; "/b"].
Proof. reflexivity. Qed.

Example split_on_keeps_empty_pieces :
  split_on ":" "/a::/b:" = ["/a"; ""; "/b"; ""] /\ split_on ":" "" = [""].
Proof. split; reflexivity. Qed.

Example split_on_windows_delimiter :
  split_on ";" "C:\mise\bin;D:\tools" = ["C:\mise\bin"; "D:\tools"].
Proof. reflexivity. Qed.

(** ** Frames compose *)

Section Frames.

Context (R : World -> World -> Prop) `{!PreOrder R}.

Lemma preserves_ret {A} (a : A) : preserves R (ret a).
Proof. intros w. simpl. reflexivity. Qed.

Lemma preserves_throw {A} t : preserves R (@throw A t).
Proof. intros w. simpl. reflexivity. Qed.

Lemma preserves_lift {A} (r : Res A) : preserves R (lift r).
Proof. intros w. simpl. reflexivity. Qed.

Lemma preserves_get_world : preserves R get_world.
Proof. intros w. simpl. reflexivity. Qed.

Lemma preserves_bind {A B} (m : M A) (k : A -> M B) :
  preserves R m -> (forall a, preserves R (k a)) -> preserves R (bind m k).
Proof.
  intros Hm Hk w. unfold bind. specialize (Hm w).
  destruct (m w) as [[a|t] w1]; simpl in *; [|done].
  etransitivity; [exact Hm|apply Hk].
Qed.

Lemma preserves_try_finally {A} (m : M A) fin :
  preserves R m -> preserves R fin -> preserves R (try_finally m fin).
Proof.
  intros Hm Hf w. unfold try_finally. specialize (Hm w).
  destruct (m w) as [r w1]. specialize (Hf w1).
  destruct (fin w1) as [r2 w2]. simpl in *. by etransitivity.
Qed.

Lemma preserves_try_catch {A} (m : M A) h :
  preserves R m -> (forall t, preserves R (h t)) -> preserves R (try_catch m h).
Proof.
  intros Hm Hh w. unfold try_catch. specialize (Hm w).
  destruct (m w) as [[a|t] w1]; simpl in *; [done|].
  etransitivity; [exact Hm|apply Hh].
Qed.

Lemma preserves_for_each {A} (f : A -> M unit) l :
  (forall x, preserves R (f x)) -> preserves R (for_each f l).
Proof.
  intros Hf. induction l as [|x l IH]; simpl.
  - apply preserves_ret.
  - apply preserves_bind; [apply Hf|by intros _].
Qed.

End Frames.

#[local] Instance both_preorder R1 R2 :
  PreOrder R1 -> PreOrder R2 -> PreOrder (both R1 R2).
Proof.
  intros H1 H2. split.
  - intros w. split; reflexivity.
  - intros a b c [? ?] [? ?]. split; by etransitivity.
Qed.

#[local] Instance keeps_preorder {X} (f : World -> X) : PreOrder (keeps f).
Proof.
  split.
  - by intros w.
  - intros a b c Hab Hbc. unfold keeps in *. congruence.
Qed.

#[local] Instance logs_only_preorder ok : PreOrder (logs_only ok).
Proof.
  split.
  - intros w. exists []. by rewrite app_nil_r.
  - intros a b c (e1 & H1 & F1) (e2 & H2 & F2). exists (e1 ++ e2).
    split; [by rewrite H2, H1, <- app_assoc|by apply Forall_app].
Qed.

Ltac frame_with prim :=
  repeat first
    [ match goal with
      | |- preserves ?R (ret _) => exact (preserves_ret R _)
      | |- preserves ?R (throw _) => exact (preserves_throw R _)
      | |- preserves ?R (lift _) => exact (preserves_lift R _)
      | |- preserves ?R get_world => exact (preserves_get_world R)
      | |- preserves ?R (bind _ _) =>
          refine (preserves_bind R _ _ _ _); [|intros ?]
      | |- preserves ?R (try_finally _ _) =>
          refine (preserves_try_finally R _ _ _ _)
      | |- preserves ?R (for_each _ _) =>
          refine (preserves_for_each R _ _ _); intros ?
      | |- preserves _ (if ?b then _ else _) => destruct b
      | |- preserves _ (match ?x with _ => _ end) => destruct x
      end
    | prim ].

(** The stages other than the cache stage stay within any frame that
    admits their toolkit calls. *)
Section StageFrames.

Context (P : Platform) (R : World -> World -> Prop) `{!PreOrder R}.

Hypothesis R_emit : forall e, cache_event e = false -> preserves R (emit e).
Hypothesis R_env : forall k v, preserves R (set_env k v).
Hypothesis R_path : forall p, preserves R (push_path p).
Hypothesis R_file : forall p body, preserves R (set_file p body).
Hypothesis R_left : forall p c, preserves R (leave_file p c).
Hypothesis R_failure : forall msg, preserves R (set_failure msg).

Ltac prim :=
  idtac;
  match goal with
  | |- preserves _ (emit _) => apply R_emit; reflexivity
  | |- preserves _ (set_env _ _) => apply R_env
  | |- preserves _ (push_path _) => apply R_path
  | |- preserves _ (set_file _ _) => apply R_file
  | |- preserves _ (leave_file _ _) => apply R_left
  | |- preserves _ (set_failure _) => apply R_failure
  end.

Lemma writeFile_frame p body : preserves R (writeFile P p body).
Proof.
  unfold writeFile, core.group, core.startGroup, core.endGroup, core.info,
    fs_promises_writeFile.
  frame_with prim.
Qed.

Lemma setToolVersions_frame : preserves R (setToolVersions P).
Proof.
  unfold setToolVersions. cbv zeta.
  destruct (truthy _); [apply writeFile_frame|exact (preserves_ret R _)].
Qed.

Lemma setMiseToml_frame : preserves R (setMiseToml P).
Proof.
  unfold setMiseToml. cbv zeta.
  destruct (truthy _); [apply writeFile_frame|exact (preserves_ret R _)].
Qed.

Lemma mise_frame args : preserves R (mise P args).
Proof.
  unfold mise, core.group, core.startGroup, core.endGroup, getExecOutput.
  cbv zeta. frame_with prim.
Qed.

Lemma setupMise_frame version : preserves R (setupMise P version).
Proof.
  unfold setupMise, core.startGroup, core.addPath, mkdir, exec.
  frame_with prim.
Qed.

Lemma setEnv_frame k v : preserves R (setEnv k v).
Proof.
  unfold setEnv, core.info, core.exportVariable. frame_with prim.
Qed.

Lemma setEnvIfUnset_frame k v : preserves R (setEnvIfUnset k v).
Proof.
  unfold setEnvIfUnset. frame_with ltac:(apply setEnv_frame).
Qed.

Lemma setEnvVarsPreInstall_frame : preserves R (setEnvVarsPreInstall P).
Proof.
  unfold setEnvVarsPreInstall, core.startGroup.
  frame_with ltac:(first [apply setEnvIfUnset_frame | prim]).
Qed.

Lemma exportEntry_frame entry : preserves R (exportEntry P entry).
Proof.
  destruct entry as [key value]. unfold exportEntry, core.info, core.addPath.
  frame_with ltac:(first [apply setEnv_frame | prim]).
Qed.

Lemma setEnvVars_frame : preserves R (setEnvVars P).
Proof.
  unfold setEnvVars, miseEnv, core.startGroup.
  frame_with ltac:(first [apply mise_frame | apply exportEntry_frame | prim]).
Qed.

Lemma installGate_frame : preserves R (installGate P).
Proof.
  unfold installGate, miseInstall.
  frame_with ltac:(first [apply mise_frame | prim]).
Qed.

Lemma run_handler_frame err : preserves R (run_handler err).
Proof.
  unfold run_handler, core.setFailed. frame_with prim.
Qed.

(** Everything that follows the cache stage in the [try] block. *)
Lemma after_cache_frame : preserves R (after_cache P).
Proof.
  unfold after_cache, testMise.
  frame_with ltac:(first
    [ apply setupMise_frame | apply setEnvVarsPreInstall_frame
    | apply mise_frame | apply installGate_frame | apply setEnvVars_frame ]).
Qed.

End StageFrames.

(** ** The pre-install environment (lines 35-40 and 139-143) *)

Lemma bind_fst_ok {A B} (m : M A) (k : A -> M B) w a :
  (m w).1 = Ok a -> bind m k w = k a (m w).2.
Proof. unfold bind. destruct (m w) as [r w1]. simpl. by intros ->. Qed.

Lemma setEnvIfUnset_env k v w :
  (setEnvIfUnset k v w).1 = Ok tt /\
  env (setEnvIfUnset k v w).2 = set_if_unset k v (env w).
Proof.
  unfold setEnvIfUnset, set_if_unset, bind, get_world. simpl.
  by destruct (truthy_opt (env w !! k)).
Qed.

Lemma setEnvVarsPreInstall_env P w :
  (setEnvVarsPreInstall P w).1 = Ok tt /\
  env (setEnvVarsPreInstall P w).2 =
    set_if_unset "MISE_EXPERIMENTAL" (if getExperimental P then "1" else "0")
      (set_if_unset "MISE_YES" "1"
        (set_if_unset "MISE_TRUSTED_CONFIG_PATHS" (process_cwd P) (env w))).
Proof.
  unfold setEnvVarsPreInstall.
  rewrite (bind_fst_ok _ _ _ tt) by reflexivity.
  set (w0 := (core.startGroup _ w).2).
  assert (env w0 = env w) as <- by reflexivity.
  destruct (setEnvIfUnset_env "MISE_TRUSTED_CONFIG_PATHS" (process_cwd P) w0)
    as [H1 E1].
  rewrite (bind_fst_ok _ _ _ tt) by exact H1.
  set (w1 := (setEnvIfUnset _ _ w0).2) in *.
  destruct (setEnvIfUnset_env "MISE_YES" "1" w1) as [H2 E2].
  rewrite (bind_fst_ok _ _ _ tt) by exact H2.
  set (w2 := (setEnvIfUnset _ _ w1).2) in *.
  destruct (setEnvIfUnset_env "MISE_EXPERIMENTAL"
              (if getExperimental P then "1" else "0") w2) as [H3 E3].
  split; [exact H3|]. by rewrite E3, E2, E1.
Qed.

Lemma set_if_unset_other k v e k' :
  k <> k' -> set_if_unset k v e !! k' = e !! k'.
Proof.
  intros Hne. unfold set_if_unset.
  destruct (truthy_opt (e !! k)); [done|]. by rewrite lookup_insert_ne.
Qed.

Lemma set_if_unset_same k v e :
  set_if_unset k v e !! k = if truthy_opt (e !! k) then e !! k else Some v.
Proof.
  unfold set_if_unset.
  destruct (truthy_opt (e !! k)); [done|]. by rewrite lookup_insert_eq.
Qed.

(** C10: a pre-install variable that is present with the empty string as its
    value counts as unset and receives the stage's default; one that is
    present with a non-empty value keeps it. *)
Theorem preinstall_empty_value_is_unset P w k v :
  (k, v) ∈ pre_install_defaults P ->
  let w' := (setEnvVarsPreInstall P w).2 in
  (env w !! k = Some "" -> env w' !! k = Some v) /\
  (forall old, env w !! k = Some old -> old <> "" -> env w' !! k = Some old).
Proof.
  intros Hin w'. subst w'.
  destruct (setEnvVarsPreInstall_env P w) as [_ ->].
  assert (env w !! k = Some "" -> truthy_opt (env w !! k) = false) as Hempty
    by (by intros ->).
  assert (forall old, env w !! k = Some old -> old <> "" ->
                      truthy_opt (env w !! k) = true) as Hfull.
  { intros old -> Hne. by destruct old. }
  unfold pre_install_defaults in Hin.
  repeat (apply elem_of_cons in Hin as [Hin|Hin]); try by inversion Hin.
  - injection Hin as -> ->.
    rewrite !set_if_unset_other by done. rewrite set_if_unset_same.
    split; [intros H; by rewrite (Hempty H)|].
    intros old H1 H2. by rewrite (Hfull old H1 H2).
  - injection Hin as -> ->.
    rewrite set_if_unset_other by done. rewrite set_if_unset_same.
    rewrite set_if_unset_other by done.
    split; [intros H; by rewrite (Hempty H)|].
    intros old H1 H2. by rewrite (Hfull old H1 H2).
  - injection Hin as -> ->.
    rewrite set_if_unset_same. rewrite !set_if_unset_other by done.
    split; [intros H; by rewrite (Hempty H)|].
    intros old H1 H2. by rewrite (Hfull old H1 H2).
Qed.

Lemma preinstall_empty_value_is_unset_witness :
  env (setEnvVarsPreInstall (sample_platform true (Ok None) good_dump)
         (fresh_world {[ "MISE_YES" := "" ]})).2 !! "MISE_YES" = Some "1".
Proof.
  refine (proj1 (preinstall_empty_value_is_unset
                   (sample_platform true (Ok None) good_dump)
                   (fresh_world {[ "MISE_YES" := "" ]}) "MISE_YES" "1" _) _).
  - vm_compute. apply list_elem_of_further, list_elem_of_here.
  - vm_compute. reflexivity.
Defined.

(** C5 as stated fails: with [MISE_YES] present and empty before the stage,
    the stage replaces the value that was there. *)
Lemma preinstall_overwrites_present_value :
  let P := sample_platform true (Ok None) good_dump in
  let w := fresh_world {[ "MISE_YES" := "" ]} in
  is_Some (env w !! "MISE_YES") /\
  env (setEnvVarsPreInstall P w).2 !! "MISE_YES" <> env w !! "MISE_YES".
Proof.
  split.
  - exists "". vm_compute. reflexivity.
  - vm_compute. discriminate.
Qed.

(** C5, amended: the stage always completes; each of the three variables is
    set to its default exactly when it is absent or empty beforehand, a
    non-empty value is kept, and every other variable is left as it was. *)
Theorem preinstall_sets_only_unset P w k :
  let w' := (setEnvVarsPreInstall P w).2 in
  (setEnvVarsPreInstall P w).1 = Ok tt /\
  (forall v, (k, v) ∈ pre_install_defaults P ->
     env w' !! k = if truthy_opt (env w !! k) then env w !! k else Some v) /\
  (k ∉ (pre_install_defaults P).*1 -> env w' !! k = env w !! k).
Proof.
  intros w'. subst w'.
  destruct (setEnvVarsPreInstall_env P w) as [Hok ->].
  split; [exact Hok|]. split.
  - intros v Hin. unfold pre_install_defaults in Hin.
    repeat (apply elem_of_cons in Hin as [Hin|Hin]); try by inversion Hin.
    + injection Hin as -> ->.
      rewrite !set_if_unset_other by done. apply set_if_unset_same.
    + injection Hin as -> ->.
      rewrite set_if_unset_other by done. rewrite set_if_unset_same.
      by rewrite set_if_unset_other.
    + injection Hin as -> ->.
      rewrite set_if_unset_same. by rewrite !set_if_unset_other.
  - intros Hout. unfold pre_install_defaults in Hout. simpl in Hout.
    rewrite !not_elem_of_cons in Hout. destruct Hout as (H1 & H2 & H3 & _).
    by rewrite !set_if_unset_other.
Qed.

(** ** The config writer (lines 116-128 and 158-162) *)

Lemma writeFile_ok P p body w :
  fs_writeFile P p body = Ok tt ->
  writeFile P p body w =
    (Ok tt,
     mkWorld (env w) (added_paths w) (outputs w) (saved w)
       (<[p := body]> (files w)) (failure w)
       (log w ++ [EStartGroup ("Writing " +:+ p);
                  EInfo ("Body:" +:+ nl +:+ body);
                  EWriteFile p body "utf8";
                  EEndGroup])).
Proof.
  intros H.
  unfold writeFile, core.group, core.startGroup, core.endGroup, core.info,
    fs_promises_writeFile, try_finally, bind, emit, lift, set_file.
  simpl. rewrite H. simpl. by rewrite <- !app_assoc.
Qed.

Lemma truthy_false s : truthy s = false <-> s = "".
Proof. destruct s; simpl; split; congruence. Qed.

Lemma truthy_true s : truthy s = true <-> s <> "".
Proof. destruct s; simpl; split; congruence. Qed.

(** C7: each of the two config files is left alone (nothing at all happens)
    when its input is empty; otherwise the file is written with the input
    as its body, unchanged, with the utf8 encoding, replacing whatever the
    path held, and no other file is touched. *)
Theorem config_writer_verbatim P w :
  let toolVersions := getInput P "tool_versions" in
  let toml := getInput P "mise_toml" in
  (toolVersions = "" -> setToolVersions P w = (Ok tt, w)) /\
  (toolVersions <> "" ->
   fs_writeFile P ".tool-versions" toolVersions = Ok tt ->
   (setToolVersions P w).1 = Ok tt /\
   files (setToolVersions P w).2
     = <[".tool-versions" := toolVersions]> (files w) /\
   log (setToolVersions P w).2
     = log w ++ [EStartGroup "Writing .tool-versions";
                 EInfo ("Body:" +:+ nl +:+ toolVersions);
                 EWriteFile ".tool-versions" toolVersions "utf8";
                 EEndGroup]) /\
  (toml = "" -> setMiseToml P w = (Ok tt, w)) /\
  (toml <> "" ->
   fs_writeFile P ".mise.toml" toml = Ok tt ->
   (setMiseToml P w).1 = Ok tt /\
   files (setMiseToml P w).2 = <[".mise.toml" := toml]> (files w) /\
   log (setMiseToml P w).2
     = log w ++ [EStartGroup "Writing .mise.toml";
                 EInfo ("Body:" +:+ nl +:+ toml);
                 EWriteFile ".mise.toml" toml "utf8";
                 EEndGroup]).
Proof.
  intros toolVersions toml. unfold setToolVersions, setMiseToml.
  fold toolVersions toml. cbv zeta.
  split; [by intros ->|]. split.
  { intros Hne Hw. apply truthy_true in Hne.
    by rewrite Hne, (writeFile_ok _ _ _ _ Hw). }
  split; [by intros ->|].
  intros Hne Hw. apply truthy_true in Hne.
  by rewrite Hne, (writeFile_ok _ _ _ _ Hw).
Qed.

Lemma config_writer_verbatim_witness :
  let P := sample_platform true (Ok None) good_dump in
  let w := fresh_world ∅ in
  files (setToolVersions P w).2 !! ".tool-versions" = Some "node 20" /\
  setMiseToml P w = (Ok tt, w).
Proof.
  intros P w.
  destruct (config_writer_verbatim P w) as (_ & Hwrite & Hskip & _).
  split.
  - destruct Hwrite as (_ & -> & _); [by vm_compute|reflexivity|].
    apply lookup_insert_eq.
  - apply Hskip. reflexivity.
Defined.

(** ** The cache stage (lines 63-92) *)

Lemma emit_run e w :
  emit e w = (Ok tt, mkWorld (env w) (added_paths w) (outputs w) (saved w)
                       (files w) (failure w) (log w ++ [e])).
Proof. reflexivity. Qed.

Lemma saveState_run k v w :
  core.saveState k v w
  = (Ok tt, mkWorld (env w) (added_paths w) (outputs w) (<[k := v]> (saved w))
                    (files w) (failure w) (log w ++ [ESaveState k v])).
Proof. reflexivity. Qed.

Lemma setOutput_run k v w :
  core.setOutput k v w
  = (Ok tt, mkWorld (env w) (added_paths w) (<[k := v]> (outputs w)) (saved w)
                    (files w) (failure w) (log w ++ [ESetOutput k v])).
Proof. reflexivity. Qed.

Lemma restoreCache_run P paths key w :
  restoreCache P paths key w
  = (cache_restoreCache P paths key,
     mkWorld (env w) (added_paths w) (outputs w) (saved w) (files w)
             (failure w) (log w ++ [ERestoreCache paths key])).
Proof. reflexivity. Qed.

(** Membership in an explicit list of events. *)
Ltac in_events :=
  rewrite ?elem_of_app, ?elem_of_cons, ?elem_of_nil; tauto.

Ltac not_in_events H :=
  rewrite ?elem_of_app, ?elem_of_cons, ?elem_of_nil in H;
  intuition congruence.

Ltac proj_world := cbn [env added_paths outputs saved files failure log].

Ltac same_world := proj_world; rewrite <- ?app_assoc; reflexivity.

(** The cache stage, call by call. *)
Lemma restoreMiseCache_run P w h b :
  glob_hashFiles P config_globs = Ok h ->
  getBooleanInput P "cache_save" = Ok b ->
  let dir := miseDir P (env w) in
  let key := primaryKey P h in
  let s1 := saved_before_restore P dir h b (saved w) in
  let l1 := log w ++ restore_prologue P dir h b in
  restoreMiseCache P w =
    match cache_restoreCache P [dir] key with
    | Throw t =>
        (Throw t,
         mkWorld (env w) (added_paths w) (outputs w) s1 (files w) (failure w) l1)
    | Ok cacheKey =>
        (Ok tt,
         mkWorld (env w) (added_paths w)
           (<["cache-hit" := VBool (truthy_opt cacheKey)]> (outputs w))
           (if truthy_opt cacheKey
            then <["CACHE_KEY" := VStr (default "" cacheKey)]> s1 else s1)
           (files w) (failure w)
           (l1 ++ ESetOutput "cache-hit" (VBool (truthy_opt cacheKey))
               :: (if truthy_opt cacheKey
                   then [ESaveState "CACHE_KEY" (VStr (default "" cacheKey));
                         EInfo ("mise cache restored from key: "
                                +:+ default "" cacheKey)]
                   else [EInfo ("mise cache not found for " +:+ key)])))
    end.
Proof.
  intros Hh Hb dir key s1 l1.
  unfold restoreMiseCache, core.startGroup.
  rewrite (bind_ok _ _ _ _ _ (emit_run _ w)).
  erewrite bind_ok; [|reflexivity]. proj_world. fold dir.
  erewrite bind_ok;
    [|unfold hashFiles; rewrite (bind_ok _ _ _ _ _ (emit_run _ _));
      unfold lift; rewrite Hh; reflexivity].
  fold (primaryKey P h). fold key.
  erewrite bind_ok; [|unfold lift; rewrite Hb; reflexivity].
  rewrite (bind_ok _ _ _ _ _ (saveState_run _ _ _)).
  rewrite (bind_ok _ _ _ _ _ (saveState_run _ _ _)).
  rewrite (bind_ok _ _ _ _ _ (saveState_run _ _ _)).
  proj_world.
  fold (saved_before_restore P dir h b (saved w)). fold s1.
  assert (((((((log w ++ [EStartGroup "Restoring mise cache"])
               ++ [EHashFiles config_globs])
              ++ [ESaveState "CACHE" (VBool b)])
             ++ [ESaveState "PRIMARY_KEY" (VStr key)])
            ++ [ESaveState "MISE_DIR" (VStr dir)])
           ++ [ERestoreCache [dir] key]) = l1) as Hl1.
  { subst l1. unfold restore_prologue. fold key. by rewrite <- !app_assoc. }
  unfold bind at 1. rewrite restoreCache_run. proj_world. rewrite Hl1.
  destruct (cache_restoreCache P [dir] key) as [cacheKey|t]; [|reflexivity].
  rewrite (bind_ok _ _ _ _ _ (setOutput_run _ _ _)). proj_world.
  destruct cacheKey as [k|]; cbn [truthy_opt default].
  - destruct (truthy k).
    + rewrite (bind_ok _ _ _ _ _ (saveState_run _ _ _)). proj_world.
      unfold core.info. rewrite emit_run. proj_world.
      by rewrite <- !app_assoc.
    + unfold core.info. rewrite emit_run. proj_world.
      by rewrite <- !app_assoc.
  - unfold core.info. rewrite emit_run. proj_world.
    by rewrite <- !app_assoc.
Qed.

Lemma or_else_decide a b :
  or_else a b = if decide (a = "") then b else a.
Proof. unfold or_else. destruct a; by simpl. Qed.

Lemma getOS_decide P :
  getOS P = if decide (process_platform P = "darwin") then "macos"
            else process_platform P.
Proof.
  unfold getOS. destruct (String.eqb_spec (process_platform P) "darwin");
    by case_decide.
Qed.

(** C2: once the configuration files are hashed, the key under which the
    cache is restored and which is saved as PRIMARY_KEY is
    prefix-os-arch-hash: the prefix is the cache_key_prefix input, or mise-v0
    when that is empty; the os is macos on darwin and the platform identifier
    as it is otherwise; the hash is the one taken over the fixed glob. *)
Theorem cache_key_shape P w h b :
  glob_hashFiles P config_globs = Ok h ->
  getBooleanInput P "cache_save" = Ok b ->
  let prefix :=
    if decide (getInput P "cache_key_prefix" = "") then "mise-v0"
    else getInput P "cache_key_prefix" in
  let os :=
    if decide (process_platform P = "darwin") then "macos"
    else process_platform P in
  let key := prefix +:+ "-" +:+ os +:+ "-" +:+ os_arch P +:+ "-" +:+ h in
  let dir := miseDir P (env w) in
  config_globs =
    "**/.config/mise/config.toml" +:+ nl +:+ "**/.mise.*.toml" +:+ nl +:+
    "**/.mise.toml" +:+ nl +:+ "**/.mise/config.toml" +:+ nl +:+
    "**/.tool-versions" /\
  saved (restoreMiseCache P w).2 !! "PRIMARY_KEY" = Some (VStr key) /\
  exists post,
    log (restoreMiseCache P w).2 =
      log w ++ [EStartGroup "Restoring mise cache";
                EHashFiles config_globs;
                ESaveState "CACHE" (VBool b);
                ESaveState "PRIMARY_KEY" (VStr key);
                ESaveState "MISE_DIR" (VStr dir);
                ERestoreCache [dir] key] ++ post.
Proof.
  intros Hh Hb prefix os key dir.
  assert (primaryKey P h = key) as Hkey.
  { unfold primaryKey. by rewrite or_else_decide, getOS_decide. }
  split; [reflexivity|].
  rewrite (restoreMiseCache_run P w h b Hh Hb). cbv zeta.
  fold dir. rewrite Hkey. unfold restore_prologue, saved_before_restore.
  rewrite Hkey.
  destruct (cache_restoreCache P [dir] key) as [ck|t];
    cbn [fst snd saved log].
  - split.
    + destruct (truthy_opt ck); by simplify_map_eq.
    + eexists. by rewrite <- app_assoc.
  - split; [by simplify_map_eq|]. exists []. by rewrite app_nil_r.
Qed.

Lemma cache_key_shape_witness :
  let P := sample_platform true (Ok None) good_dump in
  saved (restoreMiseCache P (fresh_world ∅)).2 !! "PRIMARY_KEY"
    = Some (VStr "mise-v0-macos-arm64-0a1b2c").
Proof.
  intros P.
  destruct (cache_key_shape P (fresh_world ∅) "0a1b2c" true) as (_ & H & _);
    [reflexivity|reflexivity|].
  exact H.
Defined.


(** ** The environment exporter (lines 42-61) *)

Lemma world_eta w :
  mkWorld (env w) (added_paths w) (outputs w) (saved w) (files w)
          (failure w) (log w) = w.
Proof. by destruct w. Qed.

Lemma addPath_run d p w :
  core.addPath d p w
  = (Ok tt,
     mkWorld (prepend_path d (env w) p) (added_paths w ++ [p]) (outputs w)
             (saved w) (files w) (failure w) (log w ++ [EAddPath p])).
Proof. reflexivity. Qed.

Lemma add_paths_run d (l : list string) w :
  for_each (fun pathElement =>
              core.info ("Adding " +:+ pathElement +:+ " to PATH") ;;;
              core.addPath d pathElement) l w
  = (Ok tt,
     mkWorld (foldl (prepend_path d) (env w) l) (added_paths w ++ l)
             (outputs w) (saved w) (files w)
             (failure w) (log w ++ flat_map path_events l)).
Proof.
  revert w. induction l as [|p l IH]; intros w.
  - cbn [for_each flat_map foldl]. unfold ret.
    by rewrite !app_nil_r, world_eta.
  - cbn [for_each].
    assert ((core.info ("Adding " +:+ p +:+ " to PATH") ;;; core.addPath d p) w
            = (Ok tt,
               mkWorld (prepend_path d (env w) p) (added_paths w ++ [p])
                 (outputs w) (saved w) (files w) (failure w)
                 (log w ++ path_events p))) as Hstep.
    { unfold core.info. rewrite (bind_ok _ _ _ _ _ (emit_run _ w)).
      rewrite addPath_run. unfold path_events. same_world. }
    rewrite (bind_ok _ _ _ _ _ Hstep), IH. same_world.
Qed.

Lemma setEnv_run k v w :
  setEnv k v w
  = (Ok tt,
     mkWorld (<[k := v]> (env w)) (added_paths w) (outputs w) (saved w)
             (files w) (failure w)
             (log w ++ [EInfo ("Setting " +:+ k +:+ "=" +:+ v);
                        EExportVariable k v])).
Proof.
  cbv [setEnv core.info core.exportVariable bind emit set_env
       env added_paths outputs saved files failure log].
  by rewrite <- app_assoc.
Qed.

Lemma exportEntry_run P entry w :
  exportEntry P entry w
  = (Ok tt,
     mkWorld (entry_env P entry (env w))
             (added_paths w ++ entry_paths P entry)
             (outputs w) (saved w) (files w) (failure w)
             (log w ++ entry_events P entry)).
Proof.
  destruct entry as [key value].
  unfold exportEntry, entry_env, entry_paths, entry_events. cbn [fst snd].
  destruct (negb (String.eqb key "PATH")).
  - rewrite app_nil_r. apply setEnv_run.
  - apply add_paths_run.
Qed.

Lemma export_entries_run P envVars w :
  for_each (exportEntry P) envVars w
  = (Ok tt,
     mkWorld (foldl (fun e entry => entry_env P entry e) (env w) envVars)
             (added_paths w ++ flat_map (entry_paths P) envVars)
             (outputs w) (saved w) (files w) (failure w)
             (log w ++ flat_map (entry_events P) envVars)).
Proof.
  revert w. induction envVars as [|entry rest IH]; intros w.
  - cbn [for_each flat_map foldl]. unfold ret.
    by rewrite !app_nil_r, world_eta.
  - cbn [for_each]. erewrite bind_ok; [|apply exportEntry_run].
    rewrite IH. same_world.
Qed.

Lemma miseEnv_run P w :
  miseEnv P w
  = (exec_getExecOutput P "mise" ["env"; "--json"] (mise_cwd P),
     mkWorld (env w) (added_paths w) (outputs w) (saved w) (files w)
             (failure w)
             (log w ++ [EStartGroup "Running mise env --json";
                        EGetExecOutput "mise" ["env"; "--json"] (mise_cwd P);
                        EEndGroup])).
Proof.
  cbv [miseEnv mise core.group core.startGroup core.endGroup getExecOutput
       try_finally bind emit lift
       env added_paths outputs saved files failure log].
  by rewrite <- !app_assoc.
Qed.

(** The exporter on a dump that came back with exit code 0 and parsed. *)
Lemma setEnvVars_ok P w out envVars :
  exec_getExecOutput P "mise" ["env"; "--json"] (mise_cwd P) = Ok out ->
  exitCode out = 0%Z ->
  JSON_parse P (stdout out) = Ok envVars ->
  setEnvVars P w
  = (Ok tt,
     mkWorld (foldl (fun e entry => entry_env P entry e) (env w) envVars)
             (added_paths w ++ flat_map (entry_paths P) envVars)
             (outputs w) (saved w) (files w) (failure w)
             (log w ++ dump_prologue P ++ flat_map (entry_events P) envVars)).
Proof.
  intros Hout Hcode Hparse. unfold setEnvVars.
  erewrite bind_ok; [|by rewrite miseEnv_run, Hout].
  erewrite bind_ok; [|reflexivity].
  rewrite Hcode. cbn [Z.eqb].
  erewrite bind_ok; [|by unfold lift; rewrite Hparse].
  rewrite export_entries_run. unfold dump_prologue. same_world.
Qed.

Lemma prepend_paths_other d (e : gmap string string) l k :
  k <> "PATH" -> foldl (prepend_path d) e l !! k = e !! k.
Proof.
  intros Hne. revert e. induction l as [|p l IH]; intros e; [done|].
  cbn [foldl]. rewrite IH. unfold prepend_path. by rewrite lookup_insert_ne.
Qed.

Lemma prepend_paths_PATH d (e : gmap string string) l :
  foldl (prepend_path d) e l !! "PATH" = path_after d l (e !! "PATH").
Proof.
  revert e. induction l as [|p l IH]; intros e; [done|].
  unfold path_after in *. cbn [foldl]. rewrite IH. unfold prepend_path.
  by rewrite lookup_insert_eq.
Qed.

Lemma join_cons_more sep x (l : list string) :
  l <> [] -> join sep (x :: l) = x +:+ sep +:+ join sep l.
Proof. by destruct l. Qed.

Lemma join_snoc sep (l : list string) a b :
  join sep (l ++ [a +:+ sep +:+ b]) = join sep (l ++ [a; b]).
Proof.
  induction l as [|x l IH]; [reflexivity|].
  cbn [app]. rewrite !join_cons_more by (by destruct l). by rewrite IH.
Qed.

(** Handing entries to [core.addPath] one after the other puts them in
    front of what PATH held, the last one first. *)
Lemma path_after_join d (l : list string) o :
  l <> [] ->
  path_after d l o
  = Some (join (String d EmptyString)
            (reverse l ++ [default "undefined" o])).
Proof.
  revert o. induction l as [|p l IH]; intros o Hne; [done|].
  unfold path_after in *. cbn [foldl].
  destruct l as [|q l]; [reflexivity|].
  rewrite IH by done. cbn [default from_option id]. rewrite join_snoc.
  by rewrite (reverse_cons _ p), <- app_assoc.
Qed.

Lemma export_env_untouched P (envVars : list (string * string)) e k :
  k ∉ envVars.*1 ->
  foldl (fun e entry => entry_env P entry e) e envVars !! k = e !! k.
Proof.
  revert e. induction envVars as [|[k0 v0] rest IH]; intros e Hk; [done|].
  cbn [fmap list_fmap fst foldl] in *. apply not_elem_of_cons in Hk as [Hne Hk].
  rewrite IH by done. unfold entry_env. cbn [fst snd].
  destruct (String.eqb_spec k0 "PATH") as [->|_]; cbn [negb].
  - by apply prepend_paths_other.
  - by rewrite lookup_insert_ne.
Qed.

Lemma export_env_exported P (envVars : list (string * string)) e k v :
  NoDup envVars.*1 -> (k, v) ∈ envVars -> k <> "PATH" ->
  foldl (fun e entry => entry_env P entry e) e envVars !! k = Some v.
Proof.
  revert e. induction envVars as [|[k0 v0] rest IH]; intros e Hnd Hin Hne.
  - by apply elem_of_nil in Hin.
  - cbn [fmap list_fmap fst foldl] in *.
    apply NoDup_cons in Hnd as [Hfresh Hnd].
    apply elem_of_cons in Hin as [Heq|Hin].
    + injection Heq as <- <-. rewrite export_env_untouched by done.
      unfold entry_env. cbn [fst snd].
      destruct (String.eqb_spec k "PATH") as [->|_]; [done|]. cbn [negb].
      apply lookup_insert_eq.
    + by apply IH.
Qed.

Lemma export_env_PATH_value P (envVars : list (string * string)) e v :
  NoDup envVars.*1 -> ("PATH", v) ∈ envVars ->
  foldl (fun e entry => entry_env P entry e) e envVars !! "PATH"
  = path_after (path_delimiter P) (split_on (path_delimiter P) v)
      (e !! "PATH").
Proof.
  revert e. induction envVars as [|[k0 v0] rest IH]; intros e Hnd Hin.
  - by apply elem_of_nil in Hin.
  - cbn [fmap list_fmap fst foldl] in *.
    apply NoDup_cons in Hnd as [Hfresh Hnd].
    apply elem_of_cons in Hin as [Heq|Hin].
    + injection Heq as <- <-. rewrite export_env_untouched by done.
      unfold entry_env. cbn [fst snd String.eqb Ascii.eqb Bool.eqb negb].
      apply prepend_paths_PATH.
    + rewrite IH by done. f_equal. unfold entry_env. cbn [fst snd].
      destruct (String.eqb_spec k0 "PATH") as [->|Hne]; cbn [negb].
      * exfalso. apply Hfresh. apply list_elem_of_fmap. by exists ("PATH", v).
      * by rewrite lookup_insert_ne.
Qed.

Lemma export_paths_none P (envVars : list (string * string)) :
  "PATH" ∉ envVars.*1 -> flat_map (entry_paths P) envVars = [].
Proof.
  induction envVars as [|[k0 v0] rest IH]; intros Hk; [done|].
  simpl in *. apply not_elem_of_cons in Hk as [Hne Hk].
  rewrite IH by done. unfold entry_paths. simpl.
  destruct (String.eqb_spec k0 "PATH") as [->|_]; [done|]. by simpl.
Qed.

Lemma export_paths_split P (envVars : list (string * string)) v :
  NoDup envVars.*1 -> ("PATH", v) ∈ envVars ->
  flat_map (entry_paths P) envVars = split_on (path_delimiter P) v.
Proof.
  induction envVars as [|[k0 v0] rest IH]; intros Hnd Hin.
  - by apply elem_of_nil in Hin.
  - simpl in *. apply NoDup_cons in Hnd as [Hfresh Hnd].
    apply elem_of_cons in Hin as [Heq|Hin].
    + injection Heq as <- <-. rewrite export_paths_none by done.
      unfold entry_paths. simpl. by rewrite app_nil_r.
    + rewrite IH by done. unfold entry_paths. simpl.
      destruct (String.eqb_spec k0 "PATH") as [->|_]; [|done].
      exfalso. apply Hfresh. apply list_elem_of_fmap. by exists ("PATH", v).
Qed.

Lemma export_events_no_PATH P (envVars : list (string * string)) v :
  EExportVariable "PATH" v ∉ flat_map (entry_events P) envVars.
Proof.
  induction envVars as [|[k0 v0] rest IH]; simpl; [by apply not_elem_of_nil|].
  rewrite elem_of_app. intros [Hin|Hin]; [|done].
  unfold entry_events in Hin. simpl in Hin.
  destruct (String.eqb_spec k0 "PATH") as [->|Hne]; simpl in Hin.
  - apply list_elem_of_In, in_flat_map in Hin as (p & _ & Hp).
    unfold path_events in Hp. simpl in Hp. by destruct Hp as [|[|[]]].
  - not_in_events Hin.
Qed.

(** C1 as stated fails: the segments of the dump's PATH are not appended
    to the PATH of the process.  With PATH = /opt/mise/bin:/usr/bin before
    the export and /a:/b in the dump, PATH is /b:/a:/opt/mise/bin:/usr/bin
    afterwards, not /opt/mise/bin:/usr/bin:/a:/b. *)
Lemma exporter_prepends_path_segments :
  let P := sample_platform true (Ok None) good_dump in
  let w := fresh_world {[ "PATH" := "/opt/mise/bin:/usr/bin" ]} in
  env (setEnvVars P w).2 !! "PATH" = Some "/b:/a:/opt/mise/bin:/usr/bin" /\
  env (setEnvVars P w).2 !! "PATH" <> Some "/opt/mise/bin:/usr/bin:/a:/b".
Proof.
  split.
  - vm_compute. reflexivity.
  - vm_compute. discriminate.
Qed.

(** C1, amended: when the dump comes back with exit code 0 and parses to an
    object, the exporter completes; every key other than PATH is exported
    with its value, whatever the variable held before; PATH itself is never
    exported as a variable: its value is split on the path delimiter and
    each piece is handed to [core.addPath] on its own, in order, which puts
    each in front of the PATH of the process, so that PATH ends up as the
    pieces in reverse order followed by what it held before; variables that
    are not in the dump are left as they were. *)
Theorem exporter_exports_and_splits_path P w out envVars :
  exec_getExecOutput P "mise" ["env"; "--json"] (mise_cwd P) = Ok out ->
  exitCode out = 0%Z ->
  JSON_parse P (stdout out) = Ok envVars ->
  NoDup envVars.*1 ->
  let w' := (setEnvVars P w).2 in
  (setEnvVars P w).1 = Ok tt /\
  (forall k v, (k, v) ∈ envVars -> k <> "PATH" -> env w' !! k = Some v) /\
  (forall k, k ∉ envVars.*1 -> env w' !! k = env w !! k) /\
  (forall v, ("PATH", v) ∈ envVars ->
     added_paths w' = added_paths w ++ split_on (path_delimiter P) v) /\
  (forall v, ("PATH", v) ∈ envVars ->
     env w' !! "PATH"
     = Some (join (String (path_delimiter P) EmptyString)
               (reverse (split_on (path_delimiter P) v)
                ++ [default "undefined" (env w !! "PATH")]))) /\
  ("PATH" ∉ envVars.*1 -> added_paths w' = added_paths w) /\
  exists evs, log w' = log w ++ evs /\
    (forall v, EExportVariable "PATH" v ∉ evs) /\
    (forall v p, ("PATH", v) ∈ envVars ->
       p ∈ split_on (path_delimiter P) v -> EAddPath p ∈ evs).
Proof.
  intros Hout Hcode Hparse Hnd w'. subst w'.
  rewrite (setEnvVars_ok P w out envVars Hout Hcode Hparse).
  cbn [fst snd env added_paths log].
  split; [done|].
  split; [intros k v Hin Hne; by apply export_env_exported|].
  split; [intros k Hk; by apply export_env_untouched|].
  split; [intros v Hin; by rewrite (export_paths_split P envVars v)|].
  split.
  { intros v Hin. rewrite (export_env_PATH_value P envVars _ v Hnd Hin).
    apply path_after_join, split_on_nonempty. }
  split; [intros Hk; by rewrite export_paths_none, app_nil_r|].
  eexists. split; [reflexivity|]. split.
  - intros v Hin. apply elem_of_app in Hin as [Hin|Hin].
    + unfold dump_prologue in Hin. not_in_events Hin.
    + by apply export_events_no_PATH in Hin.
  - intros v p Hin Hp. apply elem_of_app. right.
    apply list_elem_of_In, in_flat_map. exists ("PATH", v).
    split; [by apply list_elem_of_In|].
    unfold entry_events. simpl. apply in_flat_map. exists p.
    split; [by apply list_elem_of_In|]. simpl. tauto.
Qed.

Lemma exporter_exports_and_splits_path_witness :
  let P := sample_platform true (Ok None) good_dump in
  let w := mkWorld {[ "FOO" := "old"; "PATH" := "/opt/mise/bin:/usr/bin" ]}
             ["/opt/mise/bin"] ∅ ∅ ∅ None [] in
  env (setEnvVars P w).2 !! "FOO" = Some "bar" /\
  added_paths (setEnvVars P w).2 = ["/opt/mise/bin"; "/a"; "/b"] /\
  env (setEnvVars P w).2 !! "PATH" = Some "/b:/a:/opt/mise/bin:/usr/bin".
Proof.
  intros P w.
  destruct (exporter_exports_and_splits_path P w good_dump
              [("FOO", "bar"); ("PATH", "/a:/b")])
    as (_ & Hexp & _ & Hpath & Hvalue & _).
  - reflexivity.
  - reflexivity.
  - reflexivity.
  - apply (bool_decide_unpack _). vm_compute. exact I.
  - split; [|split].
    + apply Hexp; [|done]. apply list_elem_of_here.
    + apply (Hpath "/a:/b"). apply list_elem_of_further, list_elem_of_here.
    + rewrite (Hvalue "/a:/b");
        [reflexivity|apply list_elem_of_further, list_elem_of_here].
Defined.

(** ** The run as a whole (lines 10-33) *)

Lemma bind_ext {A B} (m : M A) (k k' : A -> M B) w :
  (forall a w1, k a w1 = k' a w1) -> bind m k w = bind m k' w.
Proof. intros H. unfold bind. destruct (m w) as [[a|t] w1]; [apply H|done]. Qed.

Lemma bind_ret_tt (m : M unit) w : (m ;;; ret tt) w = m w.
Proof. unfold bind, ret. by destruct (m w) as [[[]|t] w1]. Qed.

Lemma run_body_stages P w : run_body P w = for_each id (stages P) w.
Proof.
  unfold run_body, stages. cbn [for_each id].
  repeat (apply bind_ext; intros _ ?). by rewrite bind_ret_tt.
Qed.

Lemma run_body_export P w :
  run_body P w = (before_export P ;;; setEnvVars P) w.
Proof.
  rewrite run_body_stages.
  change (stages P) with (take 7 (stages P) ++ [setEnvVars P]).
  rewrite for_each_app. apply bind_ext. intros _ w1. apply bind_ret_tt.
Qed.

(** No stage catches: when a stage throws after the stages before it have
    completed, the [try] block throws the same value from the same world. *)
Lemma run_body_throws P w pre s post t w1 w2 :
  stages P = pre ++ s :: post ->
  for_each id pre w = (Ok tt, w1) ->
  s w1 = (Throw t, w2) ->
  run_body P w = (Throw t, w2).
Proof.
  intros Hst Hpre Hs. rewrite run_body_stages, Hst, for_each_app.
  rewrite (bind_ok _ _ _ _ _ Hpre). cbn [for_each id].
  by rewrite (bind_throw _ _ _ _ _ Hs).
Qed.

(** C8: whichever stage throws, an Error reaches the one handler, which
    records its message as the failure of the run, and nothing runs after
    it; a thrown value that is not an Error leaves [run] as it was thrown,
    with no failure recorded. *)
Theorem handler_records_errors P w pre s post t w1 w2 :
  stages P = pre ++ s :: post ->
  for_each id pre w = (Ok tt, w1) ->
  s w1 = (Throw t, w2) ->
  match t with
  | ErrorObj message =>
      (run P w).1 = Ok tt /\
      failure (run P w).2 = Some message /\
      log (run P w).2 = log w2 ++ [ESetFailed message]
  | NonError _ =>
      (run P w).1 = Throw t /\
      (run P w).2 = w2
  end.
Proof.
  intros Hst Hpre Hs. unfold run, try_catch.
  rewrite (run_body_throws P w pre s post t w1 w2 Hst Hpre Hs).
  by destruct t.
Qed.

(** An output that [exec.getExecOutput] hands back has exit code 0: the
    [else] branch of [setEnvVars] (line 59) is never taken. *)
Lemma getExecOutput_returns_zero P cmd args cwd out :
  exec_getExecOutput P cmd args cwd = Ok out -> exitCode out = 0%Z.
Proof.
  unfold exec_getExecOutput.
  destruct (subprocess_output P cmd args cwd) as [o|t]; [|done].
  destruct (Z.eqb_spec (exitCode o) 0) as [Hz|Hnz]; [|done].
  by intros [= <-].
Qed.

(** C3, on the code: when the stages before the export have completed and
    the dump process ends with a non-zero exit code, the run does stop
    before anything is exported (the environment and the added PATH entries
    are what they were when the export stage began), but the failure it
    records is the message with which the subprocess layer rejects, made of
    the tool and the exit code: the captured standard error is not in it,
    and the message that [setEnvVars] builds from it is never thrown. *)
Theorem dump_failure_reports_exit_code_only P w w1 out :
  before_export P w = (Ok tt, w1) ->
  subprocess_output P "mise" ["env"; "--json"] (mise_cwd P) = Ok out ->
  exitCode out <> 0%Z ->
  let message := exec_failed_message P "mise" (exitCode out) in
  let w' := (run P w).2 in
  (setEnvVars P w1).1 = Throw (ErrorObj message) /\
  (run P w).1 = Ok tt /\
  failure w' = Some message /\
  env w' = env w1 /\
  added_paths w' = added_paths w1 /\
  log w' = log w1 ++ [EStartGroup "Running mise env --json";
                      EGetExecOutput "mise" ["env"; "--json"] (mise_cwd P);
                      EEndGroup;
                      ESetFailed message].
Proof.
  intros Hpre Hout Hcode message w'. subst w'.
  assert (exec_getExecOutput P "mise" ["env"; "--json"] (mise_cwd P)
          = Throw (ErrorObj message)) as Hrej.
  { unfold exec_getExecOutput. rewrite Hout.
    apply Z.eqb_neq in Hcode. by rewrite Hcode. }
  assert (setEnvVars P w1
          = (Throw (ErrorObj message),
             mkWorld (env w1) (added_paths w1) (outputs w1) (saved w1)
               (files w1) (failure w1)
               (log w1 ++ [EStartGroup "Running mise env --json";
                           EGetExecOutput "mise" ["env"; "--json"] (mise_cwd P);
                           EEndGroup]))) as Hfail.
  { unfold setEnvVars. erewrite bind_throw; [done|].
    by rewrite miseEnv_run, Hrej. }
  unfold run, try_catch.
  rewrite run_body_export, (bind_ok _ _ _ _ _ Hpre), Hfail.
  cbn [fst snd run_handler]. unfold core.setFailed.
  rewrite (bind_ok _ _ _ _ _ (emit_run _ _)).
  cbn [fst snd set_failure failure env added_paths log].
  by rewrite <- app_assoc.
Qed.

Lemma handler_records_errors_witness :
  let P := sample_platform false (Ok None) bad_dump in
  let Q := sample_platform true (Throw (NonError "boom")) good_dump in
  failure (run P (fresh_world ∅)).2
    = Some "The process 'mise' failed with exit code 1" /\
  (run Q (fresh_world ∅)).1 = Throw (NonError "boom").
Proof.
  intros P Q. split.
  - refine (proj1 (proj2
      (handler_records_errors P (fresh_world ∅) (take 7 (stages P))
         (setEnvVars P) []
         (ErrorObj "The process 'mise' failed with exit code 1")
         (for_each id (take 7 (stages P)) (fresh_world ∅)).2
         (setEnvVars P (for_each id (take 7 (stages P)) (fresh_world ∅)).2).2
         _ _ _))).
    + reflexivity.
    + vm_compute. reflexivity.
    + vm_compute. reflexivity.
  - refine (proj1
      (handler_records_errors Q (fresh_world ∅) (take 2 (stages Q))
         (cacheGate Q) (drop 3 (stages Q)) (NonError "boom")
         (for_each id (take 2 (stages Q)) (fresh_world ∅)).2
         (cacheGate Q (for_each id (take 2 (stages Q)) (fresh_world ∅)).2).2
         _ _ _)).
    + reflexivity.
    + vm_compute. reflexivity.
    + vm_compute. reflexivity.
Defined.

Lemma dump_failure_reports_exit_code_only_witness :
  let P := sample_platform false (Ok None) bad_dump in
  let w := fresh_world ∅ in
  stderr bad_dump = "mise ERROR no config" /\
  failure (run P w).2 = Some "The process 'mise' failed with exit code 1" /\
  failure (run P w).2 <> Some "Failed to run mise env: mise ERROR no config" /\
  env (run P w).2 = env (before_export P w).2.
Proof.
  intros P w.
  destruct (dump_failure_reports_exit_code_only P w (before_export P w).2
              bad_dump)
    as (_ & _ & Hfail & Henv & _).
  - vm_compute. reflexivity.
  - reflexivity.
  - vm_compute. discriminate.
  - split; [reflexivity|]. split; [rewrite Hfail; by vm_compute|].
    split; [rewrite Hfail; vm_compute; discriminate|exact Henv].
Defined.

(** ** Frames of the stages around the cache stage *)

Lemma logs_only_emit (ok : Event -> Prop) e :
  ok e -> preserves (logs_only ok) (emit e).
Proof. intros H w. exists [e]. split; [reflexivity|by constructor]. Qed.

Lemma logs_only_silent (ok : Event -> Prop) {A} (m : M A) :
  (forall w, log (m w).2 = log w) -> preserves (logs_only ok) m.
Proof. intros H w. exists []. split; [by rewrite H, app_nil_r|constructor]. Qed.

Lemma preserves_both R1 R2 {A} (m : M A) :
  preserves R1 m -> preserves R2 m -> preserves (both R1 R2) m.
Proof. intros H1 H2 w. split; [apply H1|apply H2]. Qed.

Section AroundCache.

Context (P : Platform).

Lemma run_body_around_cache w :
  run_body P w = (config_stages P ;;; cacheGate P ;;; after_cache P) w.
Proof.
  unfold run_body, config_stages, after_cache, bind.
  destruct (setToolVersions P w) as [[[]|t] w1]; [|done].
  by destruct (setMiseToml P w1) as [[[]|t] w2].
Qed.

(** Frames on the log. *)
Section Logs.

Context (ok : Event -> Prop).
Hypothesis ok_plain : forall e, cache_event e = false -> ok e.

Ltac log_prims :=
  first [ intros e He; apply logs_only_emit; by apply ok_plain
        | intros; by apply logs_only_silent
        | apply _ ].

Lemma config_logs : preserves (logs_only ok) (config_stages P).
Proof.
  refine (preserves_bind _ _ _ _ _); [|intros _].
  - apply setToolVersions_frame; log_prims.
  - apply setMiseToml_frame; log_prims.
Qed.

Lemma after_cache_logs : preserves (logs_only ok) (after_cache P).
Proof. apply after_cache_frame; log_prims. Qed.

Lemma handler_logs err : preserves (logs_only ok) (run_handler err).
Proof. apply run_handler_frame; log_prims. Qed.

End Logs.

(** Frames on a component that only the cache stage writes. *)
Section Keeps.

Context {X : Type} (f : World -> X).
Hypothesis f_emit : forall e w, f (emit e w).2 = f w.
Hypothesis f_env : forall k v w, f (set_env k v w).2 = f w.
Hypothesis f_path : forall p w, f (push_path p w).2 = f w.
Hypothesis f_file : forall p body w, f (set_file p body w).2 = f w.
Hypothesis f_left : forall p c w, f (leave_file p c w).2 = f w.
Hypothesis f_failure : forall msg w, f (set_failure msg w).2 = f w.

Ltac keep_prims :=
  first [ intros; intro; unfold keeps; by auto | apply _ ].

Lemma config_keeps : preserves (keeps f) (config_stages P).
Proof.
  refine (preserves_bind _ _ _ _ _); [|intros _].
  - apply setToolVersions_frame; keep_prims.
  - apply setMiseToml_frame; keep_prims.
Qed.

Lemma after_cache_keeps : preserves (keeps f) (after_cache P).
Proof. apply after_cache_frame; keep_prims. Qed.

Lemma handler_keeps err : preserves (keeps f) (run_handler err).
Proof. apply run_handler_frame; keep_prims. Qed.

End Keeps.

End AroundCache.

Lemma run_config_failed P w t w1 :
  config_stages P w = (Throw t, w1) -> run P w = run_handler t w1.
Proof.
  intros H. unfold run, try_catch. rewrite run_body_around_cache.
  by rewrite (bind_throw _ _ _ _ _ H).
Qed.

Lemma run_after_config P w w1 :
  config_stages P w = (Ok tt, w1) ->
  run P w = try_catch (cacheGate P ;;; after_cache P) run_handler w1.
Proof.
  intros H. unfold run, try_catch. rewrite run_body_around_cache.
  by rewrite (bind_ok _ _ _ _ _ H).
Qed.

Lemma cacheGate_run P w :
  cacheGate P w =
    match getBooleanInput P "cache" with
    | Ok true => restoreMiseCache P w
    | Ok false => core.setOutput "cache-hit" (VBool false) w
    | Throw t => (Throw t, w)
    end.
Proof.
  unfold cacheGate, bind, lift.
  by destruct (getBooleanInput P "cache") as [[|]|t].
Qed.

Lemma cache_untouched_plain e : cache_event e = false -> cache_untouched e.
Proof. by destruct e. Qed.

(** C4: with the cache input false, no run calls the cache restore, and the
    only output a run ever sets is cache-hit = false; when the config
    writer completes, that output is set, and it is still false when the
    run ends. *)
Theorem cache_disabled_no_restore P w :
  getBooleanInput P "cache" = Ok false ->
  let w' := (run P w).2 in
  exists evs,
    log w' = log w ++ evs /\
    Forall cache_untouched evs /\
    (forall ps key, ERestoreCache ps key ∉ evs) /\
    (forall w1, config_stages P w = (Ok tt, w1) ->
       ESetOutput "cache-hit" (VBool false) ∈ evs /\
       outputs w' = <["cache-hit" := VBool false]> (outputs w)).
Proof.
  intros Hcache w'. subst w'.
  assert (forall evs, Forall cache_untouched evs ->
            forall ps key, ERestoreCache ps key ∉ evs) as Hno.
  { intros evs Hall ps key Hin.
    by apply (proj1 (Forall_forall _ _) Hall) in Hin. }
  destruct (config_logs P cache_untouched cache_untouched_plain w)
    as (e1 & Hl1 & Hf1).
  assert (keeps outputs w (config_stages P w).2) as Ho1
    by (by apply config_keeps).
  destruct (config_stages P w) as [[[]|t] w1] eqn:Hconfig; simpl in *.
  - rewrite (run_after_config P w w1 Hconfig). unfold try_catch.
    assert (cacheGate P w1 = core.setOutput "cache-hit" (VBool false) w1) as Hg.
    { by rewrite cacheGate_run, Hcache. }
    rewrite (bind_ok _ _ w1 tt (core.setOutput "cache-hit" (VBool false) w1).2)
      by (by rewrite Hg).
    set (w2 := (core.setOutput "cache-hit" (VBool false) w1).2).
    destruct (after_cache_logs P cache_untouched cache_untouched_plain w2)
      as (e3 & Hl3 & Hf3).
    assert (keeps outputs w2 (after_cache P w2).2) as Ho3
      by (by apply after_cache_keeps).
    assert (forall w3 e4, log w3 = log (after_cache P w2).2 ++ e4 ->
              Forall cache_untouched e4 ->
              outputs w3 = outputs (after_cache P w2).2 ->
              exists evs, log w3 = log w ++ evs /\ Forall cache_untouched evs /\
                (forall ps key, ERestoreCache ps key ∉ evs) /\
                (forall w0, (Ok tt, w1) = (Ok tt, w0) ->
                   ESetOutput "cache-hit" (VBool false) ∈ evs /\
                   outputs w3 = <["cache-hit" := VBool false]> (outputs w)))
      as Hfinish.
    { intros w3 e4 Hl4 Hf4 Ho4.
      exists (e1 ++ [ESetOutput "cache-hit" (VBool false)] ++ e3 ++ e4).
      assert (Forall cache_untouched
                (e1 ++ [ESetOutput "cache-hit" (VBool false)] ++ e3 ++ e4))
        as Hall.
      { apply Forall_app. split; [done|]. apply Forall_app. split.
        - by repeat constructor.
        - by apply Forall_app. }
      split.
      { rewrite Hl4, Hl3. subst w2. simpl. rewrite Hl1.
        by rewrite <- !app_assoc. }
      split; [done|]. split; [by apply Hno|].
      intros _ _. split; [set_solver|].
      rewrite Ho4. unfold keeps in Ho3. rewrite Ho3. subst w2. simpl.
      unfold keeps in Ho1. by rewrite Ho1. }
    destruct (after_cache P w2) as [[[]|t] w3] eqn:Hafter; simpl in *.
    + apply (Hfinish w3 []); [by rewrite app_nil_r|constructor|done].
    + destruct (handler_logs cache_untouched cache_untouched_plain t w3)
        as (e4 & Hl4 & Hf4).
      apply (Hfinish _ e4); [done|done|].
      apply (handler_keeps outputs); done.
  - rewrite (run_config_failed P w t w1 Hconfig).
    destruct (handler_logs cache_untouched cache_untouched_plain t w1)
      as (e4 & Hl4 & Hf4).
    exists (e1 ++ e4).
    assert (Forall cache_untouched (e1 ++ e4)) as Hall by by apply Forall_app.
    split; [by rewrite Hl4, Hl1, <- app_assoc|].
    split; [done|]. split; [by apply Hno|]. intros w0 [=].
Qed.

Lemma cache_disabled_no_restore_witness :
  let P := sample_platform false (Ok (Some "k")) good_dump in
  outputs (run P (fresh_world ∅)).2 !! "cache-hit" = Some (VBool false).
Proof.
  intros P.
  destruct (cache_disabled_no_restore P (fresh_world ∅))
    as (evs & _ & _ & _ & Hout); [reflexivity|].
  destruct (Hout (config_stages P (fresh_world ∅)).2) as [_ ->].
  - vm_compute. reflexivity.
  - apply lookup_insert_eq.
Defined.

(** ** The saved state and the restore call *)

Lemma restoreMiseCache_hash_failed P w t :
  glob_hashFiles P config_globs = Throw t ->
  restoreMiseCache P w
  = (Throw t,
     mkWorld (env w) (added_paths w) (outputs w) (saved w) (files w)
             (failure w)
             (log w ++ [EStartGroup "Restoring mise cache";
                        EHashFiles config_globs])).
Proof.
  intros Hh. unfold restoreMiseCache, core.startGroup.
  rewrite (bind_ok _ _ _ _ _ (emit_run _ w)).
  erewrite bind_ok; [|reflexivity]. proj_world.
  erewrite bind_throw;
    [|unfold hashFiles; rewrite (bind_ok _ _ _ _ _ (emit_run _ _));
      unfold lift; rewrite Hh; reflexivity].
  same_world.
Qed.

Lemma restoreMiseCache_flag_failed P w h t :
  glob_hashFiles P config_globs = Ok h ->
  getBooleanInput P "cache_save" = Throw t ->
  restoreMiseCache P w
  = (Throw t,
     mkWorld (env w) (added_paths w) (outputs w) (saved w) (files w)
             (failure w)
             (log w ++ [EStartGroup "Restoring mise cache";
                        EHashFiles config_globs])).
Proof.
  intros Hh Hb. unfold restoreMiseCache, core.startGroup.
  rewrite (bind_ok _ _ _ _ _ (emit_run _ w)).
  erewrite bind_ok; [|reflexivity]. proj_world.
  erewrite bind_ok;
    [|unfold hashFiles; rewrite (bind_ok _ _ _ _ _ (emit_run _ _));
      unfold lift; rewrite Hh; reflexivity].
  erewrite bind_throw; [|unfold lift; rewrite Hb; reflexivity].
  same_world.
Qed.

(** The two ways the cache gate can go: it leaves the saved state alone and
    calls no restore, or it logs the whole prologue, restore call last, with
    the three values saved. *)
Lemma cacheGate_cases P w :
  let w' := (cacheGate P w).2 in
  both (keeps saved) (logs_only (fun e => is_restore e = false)) w w' \/
  exists h b tail,
    log w' = log w ++ restore_prologue P (miseDir P (env w)) h b ++ tail /\
    Forall (fun e => is_restore e = false) tail /\
    saved w' !! "CACHE" = Some (VBool b) /\
    saved w' !! "PRIMARY_KEY" = Some (VStr (primaryKey P h)) /\
    saved w' !! "MISE_DIR" = Some (VStr (miseDir P (env w))).
Proof.
  intros w'. subst w'. rewrite cacheGate_run.
  destruct (getBooleanInput P "cache") as [[|]|t].
  - destruct (glob_hashFiles P config_globs) as [h|t] eqn:Hh.
    + destruct (getBooleanInput P "cache_save") as [b|t] eqn:Hb.
      * right. exists h, b.
        rewrite (restoreMiseCache_run P w h b Hh Hb). cbv zeta.
        unfold saved_before_restore.
        destruct (cache_restoreCache P _ _) as [cacheKey|t];
          cbn [fst snd saved log].
        -- eexists. split; [by rewrite <- app_assoc|].
           split; [by destruct (truthy_opt cacheKey); repeat constructor|].
           destruct (truthy_opt cacheKey); by simplify_map_eq.
        -- exists []. split; [by rewrite app_nil_r|].
           split; [constructor|]. by simplify_map_eq.
      * left. rewrite (restoreMiseCache_flag_failed P w h t Hh Hb).
        split; [done|]. eexists. split; [reflexivity|]. by repeat constructor.
    + left. rewrite (restoreMiseCache_hash_failed P w t Hh).
      split; [done|]. eexists. split; [reflexivity|]. by repeat constructor.
  - left. rewrite setOutput_run. split; [done|].
    eexists. split; [reflexivity|]. by repeat constructor.
  - left. split; [done|]. exists []. split; [by rewrite app_nil_r|constructor].
Qed.

Lemma restore_split_unique (l1 l2 pre post : list Event) x y :
  is_restore x = true -> is_restore y = true ->
  Forall (fun e => is_restore e = false) l1 ->
  Forall (fun e => is_restore e = false) l2 ->
  l1 ++ x :: l2 = pre ++ y :: post ->
  pre = l1 /\ y = x /\ post = l2.
Proof.
  intros Hx Hy Hl1 Hl2. revert pre.
  induction Hl1 as [|a l1 Ha Hl1 IH]; intros pre Heq.
  - destruct pre as [|p pre]; simpl in Heq.
    + by injection Heq as -> ->.
    + injection Heq as -> ->.
      assert (is_restore y = false) as Hn; [|congruence].
      apply (proj1 (Forall_forall _ _) Hl2). in_events.
  - destruct pre as [|p pre]; simpl in Heq.
    + injection Heq as -> _. congruence.
    + injection Heq as -> Heq. destruct (IH pre Heq) as (-> & -> & ->). done.
Qed.

Lemma is_restore_plain e : cache_event e = false -> is_restore e = false.
Proof. by destruct e. Qed.

(** Everything around the cache gate leaves the saved state alone and calls
    no restore. *)
Lemma around_cache_quiet P :
  preserves (both (keeps saved) (logs_only (fun e => is_restore e = false)))
    (config_stages P) /\
  preserves (both (keeps saved) (logs_only (fun e => is_restore e = false)))
    (try_catch (after_cache P) run_handler) /\
  forall t,
    preserves (both (keeps saved) (logs_only (fun e => is_restore e = false)))
      (run_handler t).
Proof.
  assert (forall t,
    preserves (both (keeps saved) (logs_only (fun e => is_restore e = false)))
      (run_handler t)) as Hh.
  { intros t. apply preserves_both;
      [by apply handler_keeps|apply handler_logs, is_restore_plain]. }
  split; [|split; [|exact Hh]].
  - apply preserves_both;
      [by apply config_keeps|apply config_logs, is_restore_plain].
  - refine (preserves_try_catch _ _ _ _ Hh).
    apply preserves_both;
      [by apply after_cache_keeps|apply after_cache_logs, is_restore_plain].
Qed.

(** A run either never calls the restore, or its log is: restore-free
    events, the prologue of the cache stage with the restore call last,
    restore-free events; in the second case the three values are in the
    saved state when the run ends. *)
Lemma run_shape P w :
  let w' := (run P w).2 in
  logs_only (fun e => is_restore e = false) w w' \/
  exists e1 dir h b tail,
    log w' = log w ++ e1 ++ restore_prologue P dir h b ++ tail /\
    Forall (fun e => is_restore e = false) e1 /\
    Forall (fun e => is_restore e = false) tail /\
    saved w' !! "CACHE" = Some (VBool b) /\
    saved w' !! "PRIMARY_KEY" = Some (VStr (primaryKey P h)) /\
    saved w' !! "MISE_DIR" = Some (VStr dir).
Proof.
  intros w'. subst w'.
  destruct (around_cache_quiet P) as (Hconfig & Hafter & Hhandler).
  destruct (Hconfig w) as [Hs1 (e1 & Hl1 & Hq1)].
  destruct (config_stages P w) as [[[]|t] w1] eqn:Hc; simpl in Hs1, Hl1.
  - rewrite (run_after_config P w w1 Hc).
    assert (exists w3,
      (try_catch (cacheGate P ;;; after_cache P) run_handler w1).2 = w3 /\
      both (keeps saved) (logs_only (fun e => is_restore e = false))
        (cacheGate P w1).2 w3) as (w3 & -> & Hs3 & (e3 & Hl3 & Hq3)).
    { unfold try_catch, bind.
      destruct (cacheGate P w1) as [[[]|t] w2]; simpl.
      - eexists. split; [reflexivity|]. apply (Hafter w2).
      - eexists. split; [reflexivity|]. apply (Hhandler t w2). }
    destruct (cacheGate_cases P w1)
      as [[Hs2 (e2 & Hl2 & Hq2)]|(h & b & tail & Hl2 & Hq2 & Hc1 & Hc2 & Hc3)].
    + left. exists (e1 ++ e2 ++ e3). split.
      * by rewrite Hl3, Hl2, Hl1, <- !app_assoc.
      * by repeat (apply Forall_app; split).
    + right. exists e1, (miseDir P (env w1)), h, b, (tail ++ e3).
      unfold keeps in Hs3. rewrite Hs3.
      split; [by rewrite Hl3, Hl2, Hl1, <- !app_assoc|].
      split; [done|]. split; [by apply Forall_app|done].
  - left. rewrite (run_config_failed P w t w1 Hc).
    destruct (Hhandler t w1) as [_ (e4 & Hl4 & Hq4)].
    exists (e1 ++ e4). split; [by rewrite Hl4, Hl1, <- app_assoc|].
    by apply Forall_app.
Qed.

(** C9: in the log of any run, a call of the cache restore comes after the
    three saves of CACHE, PRIMARY_KEY (the key being restored) and MISE_DIR
    (the directory being restored); and whatever the restore then does,
    throwing included, the three values are in the saved state when the run
    ends. *)
Theorem state_saved_before_restore P w :
  let w' := (run P w).2 in
  exists evs,
    log w' = log w ++ evs /\
    forall pre ps key post,
      evs = pre ++ ERestoreCache ps key :: post ->
      exists b dir,
        ps = [dir] /\
        ESaveState "CACHE" (VBool b) ∈ pre /\
        ESaveState "PRIMARY_KEY" (VStr key) ∈ pre /\
        ESaveState "MISE_DIR" (VStr dir) ∈ pre /\
        saved w' !! "CACHE" = Some (VBool b) /\
        saved w' !! "PRIMARY_KEY" = Some (VStr key) /\
        saved w' !! "MISE_DIR" = Some (VStr dir).
Proof.
  intros w'. subst w'.
  destruct (run_shape P w)
    as [(evs & Hl & Hq)
       |(e1 & dir & h & b & tail & Hl & Hq1 & Hq2 & Hc1 & Hc2 & Hc3)].
  - exists evs. split; [done|]. intros pre ps key post ->.
    assert (is_restore (ERestoreCache ps key) = false) as Hn; [|done].
    apply (proj1 (Forall_forall _ _) Hq). in_events.
  - exists (e1 ++ restore_prologue P dir h b ++ tail). split; [done|].
    intros pre ps key post Heq.
    assert ((e1 ++ [EStartGroup "Restoring mise cache";
                    EHashFiles config_globs;
                    ESaveState "CACHE" (VBool b);
                    ESaveState "PRIMARY_KEY" (VStr (primaryKey P h));
                    ESaveState "MISE_DIR" (VStr dir)])
            ++ ERestoreCache [dir] (primaryKey P h) :: tail
            = pre ++ ERestoreCache ps key :: post) as Heq'.
    { rewrite <- Heq. unfold restore_prologue. by rewrite <- app_assoc. }
    apply restore_split_unique in Heq' as (-> & [= -> ->] & ->);
      [|done|done| |done].
    + exists b, dir. split; [done|].
      repeat (split; [in_events|]). done.
    + apply Forall_app. split; [done|]. by repeat constructor.
Qed.

Lemma state_saved_before_restore_witness :
  let P := sample_platform true (Throw (ErrorObj "cache service down")) good_dump in
  let w' := (run P (fresh_world ∅)).2 in
  failure w' = Some "cache service down" /\
  saved w' !! "PRIMARY_KEY" = Some (VStr "mise-v0-macos-arm64-0a1b2c") /\
  saved w' !! "MISE_DIR" = Some (VStr "/home/runner/.local/share/mise") /\
  exists b, saved w' !! "CACHE" = Some (VBool b).
Proof.
  intros P w'. split; [vm_compute; reflexivity|].
  destruct (state_saved_before_restore P (fresh_world ∅)) as (evs & Hl & H).
  change (log (fresh_world ∅) ++ evs) with evs in Hl.
  destruct (H (take 9 evs) ["/home/runner/.local/share/mise"]
              "mise-v0-macos-arm64-0a1b2c" (drop 10 evs))
    as (b & dir & Hdir & _ & _ & _ & H1 & H2 & H3).
  - rewrite <- Hl. vm_compute. reflexivity.
  - injection Hdir as <-. split; [exact H2|]. split; [exact H3|].
    exists b. exact H1.
Defined.


Lemma preinstall_sets_only_unset_witness :
  let P := sample_platform true (Ok None) good_dump in
  let w := fresh_world {[ "MISE_YES" := "0"; "HOME" := "/home/runner" ]} in
  let w' := (setEnvVarsPreInstall P w).2 in
  env w' !! "MISE_YES" = Some "0" /\
  env w' !! "MISE_EXPERIMENTAL" = Some "0" /\
  env w' !! "HOME" = Some "/home/runner".
Proof.
  intros P w w'.
  destruct (preinstall_sets_only_unset P w "MISE_YES") as (_ & Hyes & _).
  destruct (preinstall_sets_only_unset P w "MISE_EXPERIMENTAL") as (_ & Hexp & _).
  destruct (preinstall_sets_only_unset P w "HOME") as (_ & _ & Hhome).
  split; [|split].
  - apply (Hyes "1"). vm_compute. apply list_elem_of_further, list_elem_of_here.
  - apply (Hexp "0"). vm_compute.
    apply list_elem_of_further, list_elem_of_further, list_elem_of_here.
  - subst w'. rewrite Hhome; [vm_compute; reflexivity|].
    intros Hin. unfold pre_install_defaults in Hin.
    cbn [fmap list_fmap fst] in Hin. not_in_events Hin.
Defined.

(** The same holds when the subprocess layer itself throws on the dump
    (as it does on a failed spawn): the export stage changes nothing, and
    an Error is recorded as the failure of the run. *)
Lemma dump_throw_halts_before_export P w w1 message :
  before_export P w = (Ok tt, w1) ->
  exec_getExecOutput P "mise" ["env"; "--json"] (mise_cwd P)
    = Throw (ErrorObj message) ->
  (run P w).1 = Ok tt /\
  failure (run P w).2 = Some message /\
  env (run P w).2 = env w1 /\
  added_paths (run P w).2 = added_paths w1.
Proof.
  intros Hpre Hout. unfold run, try_catch.
  rewrite run_body_export, (bind_ok _ _ _ _ _ Hpre). unfold setEnvVars.
  erewrite bind_throw; [|by rewrite miseEnv_run, Hout]. done.
Qed.

(** * Further properties *)

(** ** The tool invoker (lines 149-156) *)

Lemma mise_run P args w :
  mise P args w
  = (exec_getExecOutput P "mise" args (mise_cwd P),
     mkWorld (env w) (added_paths w) (outputs w) (saved w) (files w)
             (failure w) (log w ++ mise_events P args)).
Proof.
  cbv [mise core.group core.startGroup core.endGroup getExecOutput
       try_finally bind emit lift
       env added_paths outputs saved files failure log].
  unfold mise_events. by rewrite <- !app_assoc.
Qed.

(** X1: a [mise] invocation runs in the install_dir input, or in the
    working directory of the process when that input is empty; it hands back
    what the subprocess layer answered, a thrown value included, without
    looking at the exit code; its log group is closed either way, and nothing
    but the log changes. *)
Theorem mise_passes_through P args w :
  let cwd :=
    if decide (getInput P "install_dir" = "") then process_cwd P
    else getInput P "install_dir" in
  (mise P args w).1 = exec_getExecOutput P "mise" args cwd /\
  log (mise P args w).2
    = log w ++ [EStartGroup ("Running mise " +:+ join " " args);
                EGetExecOutput "mise" args cwd;
                EEndGroup] /\
  env (mise P args w).2 = env w /\
  added_paths (mise P args w).2 = added_paths w /\
  outputs (mise P args w).2 = outputs w /\
  saved (mise P args w).2 = saved w /\
  files (mise P args w).2 = files w /\
  failure (mise P args w).2 = failure w.
Proof.
  intros cwd. rewrite mise_run.
  assert (mise_cwd P = cwd) as <-.
  { unfold mise_cwd. by rewrite or_else_decide. }
  done.
Qed.

(** ** The installer (lines 94-109) *)

Lemma mkdir_run P p w :
  mkdir P p w
  = (fs_mkdir P p,
     mkWorld (env w) (added_paths w) (outputs w) (saved w) (files w)
             (failure w) (log w ++ [EMkdir p])).
Proof. reflexivity. Qed.

Lemma exec_run P cmd args w :
  exec P cmd args w
  = (exec_exec P cmd args,
     mkWorld (env w) (added_paths w) (outputs w) (saved w) (files w)
             (failure w) (log w ++ [EExec cmd args])).
Proof. reflexivity. Qed.

(** The installer, call by call: the first of the three calls that throws
    ends it. *)
Lemma setupMise_run P version w :
  let bin := miseBinDir P (env w) in
  let evs := setup_events P version (env w) in
  let stopped n t :=
    (Throw t : Res unit,
     mkWorld (env w) (added_paths w) (outputs w) (saved w) (files w)
             (failure w) (log w ++ take n evs)) in
  setupMise P version w =
    match fs_mkdir P bin with
    | Throw t => stopped 2 t
    | Ok _ =>
        match exec_exec P "curl" ["-fsSL"; download_url P version; "--output";
                                  path_join P bin "mise"] with
        | Throw t => stopped 3 t
        | Ok _ =>
            match exec_exec P "chmod" ["+x"; path_join P bin "mise"] with
            | Throw t => stopped 4 t
            | Ok _ =>
                (Ok tt,
                 mkWorld (prepend_path (path_delimiter P) (env w) bin)
                         (added_paths w ++ [bin]) (outputs w) (saved w)
                         (files w) (failure w) (log w ++ evs))
            end
        end
    end.
Proof.
  intros bin evs stopped. subst stopped evs. cbv beta.
  unfold setupMise, core.startGroup.
  rewrite (bind_ok _ _ _ _ _ (emit_run _ w)).
  erewrite bind_ok; [|reflexivity]. proj_world.
  fold (miseBinDir P (env w)). fold bin. fold (download_url P version).
  unfold bind at 1. rewrite mkdir_run. proj_world.
  unfold setup_events. fold bin. cbn [take].
  destruct (fs_mkdir P bin) as [[]|t]; [|by rewrite <- !app_assoc].
  unfold bind at 1. rewrite exec_run. proj_world.
  destruct (exec_exec P "curl" _) as [c1|t]; [|by rewrite <- !app_assoc].
  unfold bind at 1. rewrite exec_run. proj_world.
  destruct (exec_exec P "chmod" _) as [c2|t]; [|by rewrite <- !app_assoc].
  rewrite addPath_run. proj_world. by rewrite <- !app_assoc.
Qed.

Lemma download_url_decide P version :
  download_url P version =
    let os := if decide (process_platform P = "darwin") then "macos"
              else process_platform P in
    if decide (version = "")
    then "https://mise.jdx.dev/mise-latest-" +:+ os +:+ "-" +:+ os_arch P
    else "https://mise.jdx.dev/v" +:+ version +:+ "/mise-v" +:+ version
         +:+ "-" +:+ os +:+ "-" +:+ os_arch P.
Proof.
  unfold download_url. rewrite getOS_decide. cbv zeta.
  destruct version; by simpl.
Qed.

(** X2: when creating the directory, the download and the chmod all return,
    the installer completes: it has fetched the versioned URL (the latest
    one when no version is given, with macos for darwin) into the file mise
    of the bin directory, made that file executable, and only then handed
    the bin directory to [core.addPath], which puts it in front of the PATH
    of the process; no other variable changes. *)
Theorem setupMise_installs P version w c1 c2 :
  let bin := path_join P (miseDir P (env w)) "bin" in
  let target := path_join P bin "mise" in
  let os := if decide (process_platform P = "darwin") then "macos"
            else process_platform P in
  let url :=
    if decide (version = "")
    then "https://mise.jdx.dev/mise-latest-" +:+ os +:+ "-" +:+ os_arch P
    else "https://mise.jdx.dev/v" +:+ version +:+ "/mise-v" +:+ version
         +:+ "-" +:+ os +:+ "-" +:+ os_arch P in
  fs_mkdir P bin = Ok tt ->
  exec_exec P "curl" ["-fsSL"; url; "--output"; target] = Ok c1 ->
  exec_exec P "chmod" ["+x"; target] = Ok c2 ->
  (setupMise P version w).1 = Ok tt /\
  added_paths (setupMise P version w).2 = added_paths w ++ [bin] /\
  env (setupMise P version w).2 !! "PATH"
    = Some (bin +:+ String (path_delimiter P) EmptyString
                +:+ default "undefined" (env w !! "PATH")) /\
  (forall k, k <> "PATH" ->
     env (setupMise P version w).2 !! k = env w !! k) /\
  exists title,
    log (setupMise P version w).2
      = log w ++ [EStartGroup title;
                  EMkdir bin;
                  EExec "curl" ["-fsSL"; url; "--output"; target];
                  EExec "chmod" ["+x"; target];
                  EAddPath bin].
Proof.
  intros bin target os url Hmk Hcurl Hchmod.
  pose proof (download_url_decide P version) as Hurl. cbv zeta in Hurl.
  fold os in Hurl. fold url in Hurl.
  rewrite setupMise_run. cbv zeta. unfold miseBinDir. fold bin. fold target.
  rewrite Hmk, Hurl, Hcurl, Hchmod. cbn [fst snd added_paths env log].
  split; [done|]. split; [done|]. unfold prepend_path.
  split; [by rewrite lookup_insert_eq|].
  split; [intros k Hk; by rewrite lookup_insert_ne|].
  eexists. unfold setup_events, miseBinDir.
  fold bin. fold target. by rewrite Hurl.
Qed.

Lemma setupMise_installs_witness :
  let P := sample_platform true (Ok None) good_dump in
  let w := fresh_world {[ "PATH" := "/usr/bin" ]} in
  env (setupMise P "2024.1.0" w).2 !! "PATH"
    = Some "/home/runner/.local/share/mise/bin:/usr/bin" /\
  exists title,
    log (setupMise P "2024.1.0" w).2
    = [EStartGroup title;
       EMkdir "/home/runner/.local/share/mise/bin";
       EExec "curl"
         ["-fsSL";
          "https://mise.jdx.dev/v2024.1.0/mise-v2024.1.0-macos-arm64";
          "--output"; "/home/runner/.local/share/mise/bin/mise"];
       EExec "chmod" ["+x"; "/home/runner/.local/share/mise/bin/mise"];
       EAddPath "/home/runner/.local/share/mise/bin"].
Proof.
  intros P w.
  destruct (setupMise_installs P "2024.1.0" w 0%Z 0%Z)
    as (_ & _ & Hpath & _ & title & Hlog);
    [reflexivity|reflexivity|reflexivity|].
  split; [rewrite Hpath; reflexivity|].
  exists title. exact Hlog.
Defined.

(** X3: whenever the installer throws, one of its three calls threw that
    value, nothing was added to PATH and the environment is as it was. *)
Theorem setupMise_throw_adds_no_path P version w t :
  (setupMise P version w).1 = Throw t ->
  let bin := path_join P (miseDir P (env w)) "bin" in
  (fs_mkdir P bin = Throw t \/
   exec_exec P "curl" ["-fsSL"; download_url P version; "--output";
                       path_join P bin "mise"] = Throw t \/
   exec_exec P "chmod" ["+x"; path_join P bin "mise"] = Throw t) /\
  added_paths (setupMise P version w).2 = added_paths w /\
  env (setupMise P version w).2 = env w /\
  exists evs,
    log (setupMise P version w).2 = log w ++ evs /\
    forall p, EAddPath p ∉ evs.
Proof.
  intros Hthrow bin. revert Hthrow.
  rewrite setupMise_run. cbv zeta. unfold miseBinDir, setup_events.
  fold bin. cbn [take]. intros Hthrow.
  destruct (fs_mkdir P bin) as [[]|t1] eqn:Hmk.
  - destruct (exec_exec P "curl" _) as [c1|t2] eqn:Hcurl.
    + destruct (exec_exec P "chmod" _) as [c2|t3] eqn:Hchmod; [done|].
      cbn [fst snd added_paths env log] in *. injection Hthrow as ->.
      split; [by right; right|]. repeat (split; [done|]).
      eexists. split; [reflexivity|]. intros p Hin. not_in_events Hin.
    + cbn [fst snd added_paths env log] in *. injection Hthrow as ->.
      split; [by right; left|]. repeat (split; [done|]).
      eexists. split; [reflexivity|]. intros p Hin. not_in_events Hin.
  - cbn [fst snd added_paths env log] in *. injection Hthrow as ->.
    split; [by left|]. repeat (split; [done|]).
    eexists. split; [reflexivity|]. intros p Hin. not_in_events Hin.
Qed.

Lemma setupMise_throw_adds_no_path_witness :
  let P := faulty_platform "" (Ok true) (Ok tt)
             (Throw (ErrorObj "curl: (22) 404")) (Ok []) in
  added_paths (setupMise P "" (fresh_world ∅)).2 = [].
Proof.
  intros P.
  destruct (setupMise_throw_adds_no_path P "" (fresh_world ∅)
              (ErrorObj "curl: (22) 404")) as (_ & Hpaths & _).
  - vm_compute. reflexivity.
  - exact Hpaths.
Defined.

(** ** The exporter: parse failures, the PATH value, the order of the keys *)

(** X4: when the dump came back with exit code 0 but does not parse, the
    exporter throws what the parser threw; no variable is exported and no
    PATH entry is added. *)
Theorem export_parse_failure_changes_nothing P w out t :
  exec_getExecOutput P "mise" ["env"; "--json"] (mise_cwd P) = Ok out ->
  exitCode out = 0%Z ->
  JSON_parse P (stdout out) = Throw t ->
  (setEnvVars P w).1 = Throw t /\
  env (setEnvVars P w).2 = env w /\
  added_paths (setEnvVars P w).2 = added_paths w /\
  log (setEnvVars P w).2
    = log w ++ [EStartGroup "Running mise env --json";
                EGetExecOutput "mise" ["env"; "--json"] (mise_cwd P);
                EEndGroup;
                EStartGroup "Setting env vars"].
Proof.
  intros Hout Hcode Hparse. unfold setEnvVars.
  erewrite bind_ok; [|by rewrite miseEnv_run, Hout].
  erewrite bind_ok; [|reflexivity].
  rewrite Hcode. cbn [Z.eqb].
  erewrite bind_throw; [|by unfold lift; rewrite Hparse].
  cbn [fst snd env added_paths log]. by rewrite <- !app_assoc.
Qed.

Lemma export_parse_failure_changes_nothing_witness :
  let P := faulty_platform "" (Ok true) (Ok tt) (Ok 0%Z)
             (Throw (ErrorObj "Unexpected end of JSON input")) in
  let w := fresh_world {[ "HOME" := "/home/runner" ]} in
  (setEnvVars P w).1 = Throw (ErrorObj "Unexpected end of JSON input") /\
  env (setEnvVars P w).2 = env w.
Proof.
  intros P w.
  destruct (export_parse_failure_changes_nothing P w (mkExecOutput 0 "{}" "")
              (ErrorObj "Unexpected end of JSON input"))
    as (Hres & Henv & _); [reflexivity|reflexivity|reflexivity|].
  split; [exact Hres|exact Henv].
Defined.

(** X5: the PATH entries the exporter adds are the dump's PATH value cut at
    the delimiters and nothing else: there is at least one, none contains
    the delimiter, and joined by the delimiter they give the value back.
    An empty PATH value therefore adds one empty entry. *)
Theorem exporter_path_round_trip P w out envVars v :
  exec_getExecOutput P "mise" ["env"; "--json"] (mise_cwd P) = Ok out ->
  exitCode out = 0%Z ->
  JSON_parse P (stdout out) = Ok envVars ->
  NoDup envVars.*1 ->
  ("PATH", v) ∈ envVars ->
  exists added,
    added_paths (setEnvVars P w).2 = added_paths w ++ added /\
    added <> [] /\
    Forall (fun p => occurs (path_delimiter P) p = false) added /\
    join (String (path_delimiter P) EmptyString) added = v /\
    (v = "" -> added = [""]).
Proof.
  intros Hout Hcode Hparse Hnd Hin.
  rewrite (setEnvVars_ok P w out envVars Hout Hcode Hparse).
  cbn [snd added_paths].
  rewrite (export_paths_split P envVars v Hnd Hin).
  exists (split_on (path_delimiter P) v).
  split; [done|]. split; [apply split_on_nonempty|].
  split; [apply split_on_pieces|]. split; [apply join_split_on|].
  by intros ->.
Qed.

Lemma exporter_path_round_trip_witness :
  let P := faulty_platform "" (Ok true) (Ok tt) (Ok 0%Z)
             (Ok [("PATH", "")]) in
  added_paths (setEnvVars P (fresh_world ∅)).2 = [""].
Proof.
  intros P.
  destruct (exporter_path_round_trip P (fresh_world ∅) (mkExecOutput 0 "{}" "")
              [("PATH", "")] "")
    as (added & Hadded & _ & _ & _ & Hempty).
  - reflexivity.
  - reflexivity.
  - reflexivity.
  - apply NoDup_singleton.
  - apply list_elem_of_here.
  - rewrite Hadded, (Hempty eq_refl). reflexivity.
Defined.

Lemma fst_elem_of_pair (l : list (string * string)) k :
  k ∈ l.*1 -> exists v, (k, v) ∈ l.
Proof.
  intros Hk. apply list_elem_of_fmap in Hk as ([k' v] & -> & Hin).
  by exists v.
Qed.

(** X6: the order in which the keys of the dump are visited does not matter
    for the outcome: two listings of the same object (unique keys) leave the
    same environment and add the same PATH entries. *)
Theorem exporter_order_irrelevant P (l1 l2 : list (string * string)) w :
  NoDup l1.*1 ->
  l1 ≡ₚ l2 ->
  (for_each (exportEntry P) l1 w).1 = Ok tt /\
  (for_each (exportEntry P) l2 w).1 = Ok tt /\
  env (for_each (exportEntry P) l1 w).2 = env (for_each (exportEntry P) l2 w).2 /\
  added_paths (for_each (exportEntry P) l1 w).2
    = added_paths (for_each (exportEntry P) l2 w).2.
Proof.
  intros Hnd1 Hperm. rewrite !export_entries_run. cbn [fst snd env added_paths].
  assert (NoDup l2.*1) as Hnd2 by (by rewrite <- Hperm).
  split; [done|]. split; [done|]. split.
  - apply map_eq. intros k.
    destruct (decide (k ∈ l1.*1)) as [Hk|Hk].
    + destruct (fst_elem_of_pair l1 k Hk) as [v Hv].
      destruct (decide (k = "PATH")) as [->|Hne].
      * rewrite (export_env_PATH_value P l1 _ v Hnd1 Hv).
        rewrite Hperm in Hv.
        by rewrite (export_env_PATH_value P l2 _ v Hnd2 Hv).
      * rewrite (export_env_exported P l1 _ k v Hnd1 Hv Hne).
        rewrite Hperm in Hv.
        by rewrite (export_env_exported P l2 _ k v Hnd2 Hv Hne).
    + rewrite export_env_untouched by done.
      rewrite Hperm in Hk. by rewrite export_env_untouched.
  - f_equal. destruct (decide ("PATH" ∈ l1.*1)) as [Hk|Hk].
    + destruct (fst_elem_of_pair l1 "PATH" Hk) as [v Hv].
      rewrite (export_paths_split P l1 v Hnd1 Hv).
      rewrite Hperm in Hv. by rewrite (export_paths_split P l2 v Hnd2 Hv).
    + rewrite export_paths_none by done.
      rewrite Hperm in Hk. by rewrite export_paths_none.
Qed.

Lemma exporter_order_irrelevant_witness :
  let P := sample_platform true (Ok None) good_dump in
  let w := fresh_world ∅ in
  env (for_each (exportEntry P) [("FOO", "bar"); ("PATH", "/a:/b")] w).2
  = env (for_each (exportEntry P) [("PATH", "/a:/b"); ("FOO", "bar")] w).2.
Proof.
  intros P w.
  destruct (exporter_order_irrelevant P
              [("FOO", "bar"); ("PATH", "/a:/b")]
              [("PATH", "/a:/b"); ("FOO", "bar")] w) as (_ & _ & Henv & _).
  - apply (bool_decide_unpack _). vm_compute. exact I.
  - apply perm_swap.
  - exact Henv.
Defined.

(** ** Failures of the config writer *)

Lemma writeFile_failed P p body w t :
  fs_writeFile P p body = Throw t ->
  writeFile P p body w =
    (Throw t,
     mkWorld (env w) (added_paths w) (outputs w) (saved w)
       (partial_alter
          (fun _ => fs_failed_write_leaves P p body (files w !! p)) p (files w))
       (failure w)
       (log w ++ [EStartGroup ("Writing " +:+ p);
                  EInfo ("Body:" +:+ nl +:+ body);
                  EWriteFile p body "utf8";
                  EEndGroup])).
Proof.
  intros H.
  cbv [writeFile core.group core.startGroup core.endGroup core.info
       fs_promises_writeFile try_finally bind emit get_world throw
       leave_file set_file
       env added_paths outputs saved files failure log].
  rewrite H. by rewrite <- !app_assoc.
Qed.

Lemma setFailed_run message w :
  core.setFailed message w
  = (Ok tt,
     mkWorld (env w) (added_paths w) (outputs w) (saved w) (files w)
             (Some message) (log w ++ [ESetFailed message])).
Proof. reflexivity. Qed.

(** X7: when writing a config file fails with an Error, only the path that
    was being written can have changed: it holds what the failed write left
    there (the file is opened, hence created or emptied, before any byte is
    written), and every other file is as it was; the log group of the write
    is still closed, and the run ends there with the error's message as its
    failure: no cache restore, no download, no [mise] invocation and no
    export follow. *)
Theorem failed_config_write_stops_run P w message :
  let toolVersions := getInput P "tool_versions" in
  let toml := getInput P "mise_toml" in
  (toolVersions <> "" ->
   fs_writeFile P ".tool-versions" toolVersions = Throw (ErrorObj message) ->
   run P w =
     (Ok tt,
      mkWorld (env w) (added_paths w) (outputs w) (saved w)
        (partial_alter
           (fun _ => fs_failed_write_leaves P ".tool-versions" toolVersions
                       (files w !! ".tool-versions"))
           ".tool-versions" (files w))
        (Some message)
        (log w ++ [EStartGroup "Writing .tool-versions";
                   EInfo ("Body:" +:+ nl +:+ toolVersions);
                   EWriteFile ".tool-versions" toolVersions "utf8";
                   EEndGroup;
                   ESetFailed message])) /\
   forall q, q <> ".tool-versions" ->
     files (run P w).2 !! q = files w !! q) /\
  (forall w1,
   setToolVersions P w = (Ok tt, w1) ->
   toml <> "" ->
   fs_writeFile P ".mise.toml" toml = Throw (ErrorObj message) ->
   run P w =
     (Ok tt,
      mkWorld (env w1) (added_paths w1) (outputs w1) (saved w1)
        (partial_alter
           (fun _ => fs_failed_write_leaves P ".mise.toml" toml
                       (files w1 !! ".mise.toml"))
           ".mise.toml" (files w1))
        (Some message)
        (log w1 ++ [EStartGroup "Writing .mise.toml";
                    EInfo ("Body:" +:+ nl +:+ toml);
                    EWriteFile ".mise.toml" toml "utf8";
                    EEndGroup;
                    ESetFailed message])) /\
   forall q, q <> ".mise.toml" ->
     files (run P w).2 !! q = files w1 !! q).
Proof.
  intros toolVersions toml. split.
  - intros Hne Hw. apply truthy_true in Hne.
    assert (run P w = run_handler (ErrorObj message)
                        (writeFile P ".tool-versions" toolVersions w).2) as ->.
    { unfold run, try_catch, run_body.
      erewrite bind_throw; [reflexivity|].
      unfold setToolVersions. cbv zeta. fold toolVersions. rewrite Hne.
      rewrite (writeFile_failed _ _ _ _ _ Hw). reflexivity. }
    rewrite (writeFile_failed _ _ _ _ _ Hw).
    unfold run_handler. rewrite setFailed_run.
    cbn [fst snd env added_paths outputs saved files failure log].
    split; [by rewrite <- !app_assoc|].
    intros q Hq. by rewrite lookup_partial_alter_ne.
  - intros w1 Hfirst Hne Hw. apply truthy_true in Hne.
    assert (run P w = run_handler (ErrorObj message)
                        (writeFile P ".mise.toml" toml w1).2) as ->.
    { unfold run, try_catch, run_body.
      rewrite (bind_ok _ _ _ _ _ Hfirst).
      erewrite bind_throw; [reflexivity|].
      unfold setMiseToml. cbv zeta. fold toml. rewrite Hne.
      rewrite (writeFile_failed _ _ _ _ _ Hw). reflexivity. }
    rewrite (writeFile_failed _ _ _ _ _ Hw).
    unfold run_handler. rewrite setFailed_run.
    cbn [fst snd env added_paths outputs saved files failure log].
    split; [by rewrite <- !app_assoc|].
    intros q Hq. by rewrite lookup_partial_alter_ne.
Qed.

Lemma failed_config_write_stops_run_witness :
  let P := faulty_platform "" (Ok true) (Throw (ErrorObj "ENOSPC: no space left"))
             (Ok 0%Z) (Ok []) in
  let w := mkWorld ∅ [] ∅ ∅
             {[ ".tool-versions" := "node 18"; "README.md" := "hello" ]}
             None [] in
  failure (run P w).2 = Some "ENOSPC: no space left" /\
  files (run P w).2 !! ".tool-versions" = Some "" /\
  files (run P w).2 !! "README.md" = Some "hello" /\
  length (log (run P w).2) = 5.
Proof.
  intros P w.
  destruct (failed_config_write_stops_run P w "ENOSPC: no space left")
    as [Hrun _].
  destruct Hrun as [Hrun Hother]; [by vm_compute|reflexivity|].
  split; [by rewrite Hrun|]. split; [by rewrite Hrun|].
  split; [by rewrite Hother|by rewrite Hrun].
Defined.

(** ** The pre-install stage, run again *)

Lemma set_if_unset_settled k v (e : gmap string string) :
  e !! k = (if truthy_opt (e !! k) then e !! k else Some v) ->
  set_if_unset k v e = e.
Proof.
  unfold set_if_unset. destruct (truthy_opt (e !! k)); [done|].
  intros H. by apply insert_id.
Qed.

(** X8: the pre-install stage is idempotent on the environment: running it
    a second time exports nothing that changes a variable. *)
Theorem preinstall_idempotent P w :
  let w1 := (setEnvVarsPreInstall P w).2 in
  (setEnvVarsPreInstall P w1).1 = Ok tt /\
  env (setEnvVarsPreInstall P w1).2 = env w1.
Proof.
  intros w1. subst w1.
  destruct (setEnvVarsPreInstall_env P (setEnvVarsPreInstall P w).2)
    as [Hok ->].
  split; [exact Hok|].
  destruct (setEnvVarsPreInstall_env P w) as [_ ->].
  set (x := if getExperimental P then "1" else "0").
  set (e1 := set_if_unset "MISE_TRUSTED_CONFIG_PATHS" (process_cwd P) (env w)).
  set (e2 := set_if_unset "MISE_YES" "1" e1).
  set (e3 := set_if_unset "MISE_EXPERIMENTAL" x e2).
  assert (forall k v (e : gmap string string),
            set_if_unset k v e !! k
            = (if truthy_opt (set_if_unset k v e !! k)
               then set_if_unset k v e !! k else Some v)) as Hsettled.
  { intros k v e. rewrite set_if_unset_same.
    destruct (truthy_opt (e !! k)) eqn:Ht; [by rewrite Ht|].
    cbn [truthy_opt]. by destruct (truthy v). }
  rewrite (set_if_unset_settled "MISE_TRUSTED_CONFIG_PATHS" _ e3).
  2:{ subst e3 e2. rewrite !set_if_unset_other by done. apply Hsettled. }
  rewrite (set_if_unset_settled "MISE_YES" _ e3).
  2:{ subst e3. rewrite !set_if_unset_other by done. apply Hsettled. }
  apply set_if_unset_settled, Hsettled.
Qed.

(** ** The cache stage when something fails *)

(** X9: the cache stage sets the cache-hit output exactly when it returns;
    whenever it throws (the hash, the cache_save input or the restore
    failed), no output is set and no CACHE_KEY is saved. *)
Theorem cache_hit_reported_only_on_return P w :
  let w' := (restoreMiseCache P w).2 in
  match (restoreMiseCache P w).1 with
  | Ok _ => exists b, outputs w' = <["cache-hit" := VBool b]> (outputs w)
  | Throw _ =>
      outputs w' = outputs w /\
      saved w' !! "CACHE_KEY" = saved w !! "CACHE_KEY"
  end.
Proof.
  intros w'. subst w'.
  destruct (glob_hashFiles P config_globs) as [h|t] eqn:Hh.
  - destruct (getBooleanInput P "cache_save") as [b|t] eqn:Hb.
    + rewrite (restoreMiseCache_run P w h b Hh Hb). cbv zeta.
      destruct (cache_restoreCache P _ _) as [cacheKey|t];
        cbn [fst snd outputs saved].
      * by eexists.
      * split; [done|]. unfold saved_before_restore. by simplify_map_eq.
    + by rewrite (restoreMiseCache_flag_failed P w h t Hh Hb).
  - by rewrite (restoreMiseCache_hash_failed P w t Hh).
Qed.

(** X10: when hashing the configuration files throws, or the cache_save
    input cannot be read as a boolean, the cache stage throws that value
    right after the hash call: nothing is saved, no output is set and the
    restore is not called. *)
Theorem cache_stage_fails_before_saving P w t :
  glob_hashFiles P config_globs = Throw t \/
  (exists h, glob_hashFiles P config_globs = Ok h /\
             getBooleanInput P "cache_save" = Throw t) ->
  restoreMiseCache P w
  = (Throw t,
     mkWorld (env w) (added_paths w) (outputs w) (saved w) (files w)
             (failure w)
             (log w ++ [EStartGroup "Restoring mise cache";
                        EHashFiles config_globs])).
Proof.
  intros [Hh|(h & Hh & Hb)].
  - by apply restoreMiseCache_hash_failed.
  - by apply (restoreMiseCache_flag_failed P w h).
Qed.

Lemma cache_stage_fails_before_saving_witness :
  let P := faulty_platform "" (Ok true) (Ok tt) (Ok 0%Z) (Ok []) in
  saved (restoreMiseCache P (fresh_world ∅)).2 = ∅ /\
  (restoreMiseCache P (fresh_world ∅)).1 = Throw (ErrorObj "glob failed").
Proof.
  intros P.
  rewrite (cache_stage_fails_before_saving P (fresh_world ∅)
             (ErrorObj "glob failed")); [done|].
  left. reflexivity.
Defined.

Lemma append_cancel_l (s a b : string) : s +:+ a = s +:+ b -> a = b.
Proof.
  induction s as [|c s IH]; cbn [String.append]; [done|].
  intros [= H]. by apply IH.
Qed.

(** X11: on a given platform and prefix the cache key determines the hash:
    two different hashes of the configuration files never give the same
    key. *)
Theorem primaryKey_determines_hash P h1 h2 :
  h1 <> h2 -> primaryKey P h1 <> primaryKey P h2.
Proof.
  unfold primaryKey. intros Hne H. apply Hne.
  repeat (apply append_cancel_l in H). exact H.
Qed.

Lemma primaryKey_determines_hash_witness :
  let P := sample_platform true (Ok None) good_dump in
  primaryKey P "0a1b2c" <> primaryKey P "0a1b2d".
Proof.
  intros P. apply (primaryKey_determines_hash P "0a1b2c" "0a1b2d").
  discriminate.
Defined.

(** ** What a run never does *)

Ltac solve_scripted :=
  cbn [scripted];
  first [ exact I | done | by repeat constructor | by eexists
        | by (split; [|eexists]) | by left | by right ].

Section Scripted.

Context (P : Platform) (ok : Event -> Prop).
Hypothesis ok_scripted : forall e, scripted false P e -> ok e.

Ltac scripted_prim :=
  idtac;
  match goal with
  | |- preserves _ (emit _) =>
      apply logs_only_emit, ok_scripted; solve_scripted
  | |- preserves _ (set_env _ _) => by apply logs_only_silent
  | |- preserves _ (push_path _) => by apply logs_only_silent
  | |- preserves _ (set_file _ _) => by apply logs_only_silent
  | |- preserves _ (leave_file _ _) => by apply logs_only_silent
  | |- preserves _ (set_failure _) => by apply logs_only_silent
  | |- preserves _ (set_output _ _) => by apply logs_only_silent
  | |- preserves _ (set_saved _ _) => by apply logs_only_silent
  end.

Lemma writeFile_scripted p body :
  config_file P p body -> preserves (logs_only ok) (writeFile P p body).
Proof.
  intros Hfile.
  unfold writeFile, core.group, core.startGroup, core.endGroup, core.info,
    fs_promises_writeFile.
  frame_with scripted_prim.
Qed.

Lemma config_scripted : preserves (logs_only ok) (config_stages P).
Proof.
  unfold config_stages, setToolVersions, setMiseToml. cbv zeta.
  frame_with ltac:(first [ apply writeFile_scripted; by (left + right) ]).
Qed.

Lemma restoreMiseCache_scripted : preserves (logs_only ok) (restoreMiseCache P).
Proof.
  unfold restoreMiseCache, hashFiles, restoreCache, core.startGroup,
    core.saveState, core.setOutput, core.info.
  frame_with scripted_prim.
Qed.

Lemma cacheGate_scripted : preserves (logs_only ok) (cacheGate P).
Proof.
  unfold cacheGate, core.setOutput.
  frame_with ltac:(first [apply restoreMiseCache_scripted | scripted_prim]).
Qed.

Lemma setupMise_scripted version : preserves (logs_only ok) (setupMise P version).
Proof.
  unfold setupMise, core.startGroup, core.addPath, mkdir, exec.
  frame_with scripted_prim.
Qed.

Lemma setEnv_scripted k v :
  k <> "PATH" -> preserves (logs_only ok) (setEnv k v).
Proof.
  intros Hk. unfold setEnv, core.info, core.exportVariable.
  frame_with scripted_prim.
Qed.

Lemma setEnvVarsPreInstall_scripted :
  preserves (logs_only ok) (setEnvVarsPreInstall P).
Proof.
  unfold setEnvVarsPreInstall, setEnvIfUnset, core.startGroup.
  frame_with ltac:(first [by apply setEnv_scripted | scripted_prim]).
Qed.

Lemma mise_scripted args :
  ok (EGetExecOutput "mise" args (mise_cwd P)) ->
  preserves (logs_only ok) (mise P args).
Proof.
  intros Hcall.
  unfold mise, core.group, core.startGroup, core.endGroup, getExecOutput.
  cbv zeta.
  frame_with ltac:(first [by apply logs_only_emit | scripted_prim]).
Qed.

Lemma exportEntry_scripted entry : preserves (logs_only ok) (exportEntry P entry).
Proof.
  destruct entry as [key value]. unfold exportEntry, core.info, core.addPath.
  destruct (String.eqb_spec key "PATH") as [->|Hne]; cbn [negb].
  - frame_with scripted_prim.
  - by apply setEnv_scripted.
Qed.

Lemma setEnvVars_scripted : preserves (logs_only ok) (setEnvVars P).
Proof.
  unfold setEnvVars, miseEnv, core.startGroup.
  frame_with ltac:(first
    [ apply mise_scripted, ok_scripted; solve_scripted
    | apply exportEntry_scripted | scripted_prim ]).
Qed.

Lemma run_handler_scripted err : preserves (logs_only ok) (run_handler err).
Proof.
  unfold run_handler, core.setFailed. frame_with scripted_prim.
Qed.

(** The whole run, given the install gate. *)
Lemma run_scripted :
  preserves (logs_only ok) (installGate P) ->
  preserves (logs_only ok) (run P).
Proof.
  intros Hgate. unfold run.
  refine (preserves_try_catch _ _ _ _ run_handler_scripted).
  intros w. rewrite run_body_around_cache. revert w.
  change (preserves (logs_only ok)
            (config_stages P ;;; cacheGate P ;;; after_cache P)).
  unfold after_cache, testMise.
  frame_with ltac:(first
    [ apply config_scripted | apply cacheGate_scripted
    | apply setupMise_scripted | apply setEnvVarsPreInstall_scripted
    | apply mise_scripted, ok_scripted; solve_scripted
    | exact Hgate | apply setEnvVars_scripted ]).
Qed.

End Scripted.

Lemma scripted_mono P e : scripted false P e -> scripted true P e.
Proof. destruct e; cbn [scripted]; intuition. Qed.

(** X12: every call a run makes is one the script spells out, whatever the
    surroundings answer: the only output is cache-hit, with a boolean; the
    only saved keys are CACHE, PRIMARY_KEY, MISE_DIR and CACHE_KEY; PATH is
    never exported as a variable; the only hash taken is over the fixed
    glob; a restore names one directory; the only commands run through
    [exec] are curl and chmod; the only subprocess whose output is captured
    is mise, in the install directory, with --version, install or
    env --json; the only files written are .tool-versions and .mise.toml,
    utf8, each with its input as the body. *)
Theorem run_makes_only_scripted_calls P w :
  exists evs,
    log (run P w).2 = log w ++ evs /\
    Forall (scripted true P) evs.
Proof.
  apply (run_scripted P (scripted true P) (scripted_mono P)).
  unfold installGate, miseInstall.
  frame_with ltac:(first
    [ apply (mise_scripted P _ (scripted_mono P)); cbn [scripted];
      by (split; [|split; [|right; right]]) ]).
Qed.

(** X13: unless the install input reads as true, no run invokes
    [mise install]: the subcommands of a run are --version and env --json
    only. *)
Theorem install_disabled_never_installs P w :
  getBooleanInput P "install" <> Ok true ->
  exists evs,
    log (run P w).2 = log w ++ evs /\
    Forall (scripted false P) evs /\
    forall cmd cwd, EGetExecOutput cmd ["install"] cwd ∉ evs.
Proof.
  intros Hoff.
  assert (preserves (logs_only (scripted false P)) (installGate P)) as Hgate.
  { unfold installGate. intros w0. unfold bind, lift.
    destruct (getBooleanInput P "install") as [[|]|t]; [done| |];
      exists []; by rewrite app_nil_r. }
  destruct (run_scripted P (scripted false P) (fun e H => H) Hgate w)
    as (evs & Hlog & Hall).
  exists evs. split; [done|]. split; [done|].
  intros cmd cwd Hin. apply (proj1 (Forall_forall _ _) Hall) in Hin.
  cbn [scripted] in Hin. destruct Hin as (_ & _ & [H|[H|[H _]]]); discriminate.
Qed.

Lemma install_disabled_never_installs_witness :
  let P := faulty_platform "" (Ok false) (Ok tt) (Ok 0%Z) (Ok []) in
  EGetExecOutput "mise" ["install"] "/work/app" ∉ log (run P (fresh_world ∅)).2.
Proof.
  intros P.
  destruct (install_disabled_never_installs P (fresh_world ∅))
    as (evs & Hlog & _ & Hno); [discriminate|].
  change (log (fresh_world ∅) ++ evs) with evs in Hlog.
  rewrite Hlog. apply Hno.
Defined.

(** ** The installer comes first *)

Lemma run_body_around_install P w :
  run_body P w
  = (before_install P ;;; setupMise P (getInput P "version") ;;;
     after_install P) w.
Proof.
  unfold run_body, before_install, config_stages, after_install, bind.
  destruct (setToolVersions P w) as [[[]|t] w1]; [|done].
  destruct (setMiseToml P w1) as [[[]|t] w2]; [|done].
  by destruct (cacheGate P w2) as [[[]|t] w3].
Qed.

Ltac quiet_prim :=
  idtac;
  match goal with
  | |- preserves (logs_only _) (emit _) => apply logs_only_emit; reflexivity
  | |- preserves (logs_only _) _ => by apply logs_only_silent
  | |- preserves (keeps _) _ => by intros ?
  end.

Lemma before_install_quiet P :
  preserves (both (keeps env) (logs_only (fun e => is_captured e = false)))
    (before_install P).
Proof.
  apply preserves_both;
    unfold before_install, config_stages, setToolVersions, setMiseToml,
      writeFile, fs_promises_writeFile, cacheGate, restoreMiseCache,
      hashFiles, restoreCache, core.group, core.startGroup, core.endGroup,
      core.info, core.saveState, core.setOutput;
    cbv zeta; frame_with quiet_prim.
Qed.

Lemma run_handler_quiet t :
  preserves (logs_only (fun e => is_captured e = false)) (run_handler t).
Proof. unfold run_handler, core.setFailed. frame_with quiet_prim. Qed.

Lemma after_install_logs P :
  preserves (logs_only (fun _ => True)) (after_install P).
Proof.
  unfold after_install, testMise, installGate, miseInstall.
  frame_with ltac:(first
    [ apply (setEnvVarsPreInstall_scripted P _ (fun _ _ => I))
    | by apply (mise_scripted P _ (fun _ _ => I))
    | apply (setEnvVars_scripted P _ (fun _ _ => I)) ]).
Qed.

Lemma quiet_prefix (l1 l2 pre post : list Event) e :
  Forall (fun e => is_captured e = false) l1 ->
  is_captured e = true ->
  l1 ++ l2 = pre ++ e :: post ->
  exists pre', pre = l1 ++ pre'.
Proof.
  intros Hq He. revert pre.
  induction Hq as [|a l1 Ha Hq IH]; intros pre Heq; [by exists pre|].
  destruct pre as [|p pre]; cbn [app] in Heq.
  - injection Heq as -> _. congruence.
  - injection Heq as -> Heq. destruct (IH pre Heq) as [pre' ->].
    by exists pre'.
Qed.

Lemma setup_events_quiet P version e :
  Forall (fun e => is_captured e = false) (setup_events P version e).
Proof. unfold setup_events. by repeat constructor. Qed.

Lemma run_of_throw P w t w' :
  run_body P w = (Throw t, w') -> run P w = run_handler t w'.
Proof. intros H. unfold run, try_catch. by rewrite H. Qed.

Lemma run_of_ok P w w' :
  run_body P w = (Ok tt, w') -> run P w = (Ok tt, w').
Proof. intros H. unfold run, try_catch. by rewrite H. Qed.

(** The installer stops after a prefix of its calls, or makes them all. *)
Lemma setupMise_cases P version w :
  (exists t n,
     setupMise P version w
     = (Throw t,
        mkWorld (env w) (added_paths w) (outputs w) (saved w) (files w)
                (failure w) (log w ++ take n (setup_events P version (env w)))))
  \/
  setupMise P version w
  = (Ok tt,
     mkWorld (prepend_path (path_delimiter P) (env w) (miseBinDir P (env w)))
             (added_paths w ++ [miseBinDir P (env w)]) (outputs w)
             (saved w) (files w) (failure w)
             (log w ++ setup_events P version (env w))).
Proof.
  rewrite setupMise_run. cbv zeta.
  destruct (fs_mkdir P _) as [[]|t]; [|left; by exists t, 2].
  destruct (exec_exec P "curl" _) as [c1|t]; [|left; by exists t, 3].
  destruct (exec_exec P "chmod" _) as [c2|t]; [|left; by exists t, 4].
  by right.
Qed.

(** A run either captures no subprocess at all, or its log is: calls without
    a captured subprocess, the whole installer, then the rest. *)
Lemma run_install_shape P w :
  logs_only (fun e => is_captured e = false) w (run P w).2 \/
  exists A C,
    log (run P w).2
      = log w ++ A ++ setup_events P (getInput P "version") (env w) ++ C /\
    Forall (fun e => is_captured e = false) A.
Proof.
  destruct (before_install_quiet P w) as [HeA (A & HlA & HqA)].
  unfold keeps in HeA.
  destruct (before_install P w) as [[[]|t] w1] eqn:Hb; cbn [snd] in HeA, HlA.
  - destruct (setupMise_cases P (getInput P "version") w1)
      as [(t & n & Hs)|Hs]; rewrite HeA in Hs.
    + left. rewrite (run_of_throw P w t _
        ltac:(by rewrite run_body_around_install, (bind_ok _ _ _ _ _ Hb),
                 (bind_throw _ _ _ _ _ Hs))).
      match goal with
      | |- logs_only _ _ (run_handler _ ?w2).2 =>
          destruct (run_handler_quiet t w2) as (H & HlH & HqH)
      end.
      cbn [log] in HlH.
      exists (A ++ take n (setup_events P (getInput P "version") (env w)) ++ H).
      split; [by rewrite HlH, HlA, <- !app_assoc|].
      apply Forall_app. split; [done|]. apply Forall_app. split; [|done].
      apply Forall_take, setup_events_quiet.
    + right. exists A.
      match type of Hs with _ = (_, ?w2') => set (w2 := w2') in * end.
      destruct (after_install_logs P w2) as (C & HlC & _).
      destruct (after_install P w2) as [[[]|t] w3] eqn:Ha; cbn [snd] in HlC.
      * rewrite (run_of_ok P w w3
          ltac:(by rewrite run_body_around_install, (bind_ok _ _ _ _ _ Hb),
                   (bind_ok _ _ _ _ _ Hs))).
        exists C. split; [|done]. cbn [snd].
        rewrite HlC. subst w2. cbn [log]. by rewrite HlA, <- !app_assoc.
      * rewrite (run_of_throw P w t w3
          ltac:(by rewrite run_body_around_install, (bind_ok _ _ _ _ _ Hb),
                   (bind_ok _ _ _ _ _ Hs))).
        destruct (run_handler_quiet t w3) as (H & HlH & _).
        exists (C ++ H). split; [|done].
        rewrite HlH, HlC. subst w2. cbn [log]. by rewrite HlA, <- !app_assoc.
  - left. rewrite (run_of_throw P w t w1
      ltac:(by rewrite run_body_around_install, (bind_throw _ _ _ _ _ Hb))).
    destruct (run_handler_quiet t w1) as (H & HlH & HqH).
    exists (A ++ H). split; [by rewrite HlH, HlA, <- app_assoc|].
    by apply Forall_app.
Qed.

(** X14: in the log of any run, every [mise] invocation comes after the
    whole installer: the binary directory was created, the download and the
    chmod of its file mise returned, and the directory was added to PATH. *)
Theorem mise_runs_only_after_install P w :
  exists evs,
    log (run P w).2 = log w ++ evs /\
    forall pre cmd args cwd post,
      evs = pre ++ EGetExecOutput cmd args cwd :: post ->
      let bin := path_join P (miseDir P (env w)) "bin" in
      let target := path_join P bin "mise" in
      EMkdir bin ∈ pre /\
      EExec "curl" ["-fsSL"; download_url P (getInput P "version");
                    "--output"; target] ∈ pre /\
      EExec "chmod" ["+x"; target] ∈ pre /\
      EAddPath bin ∈ pre.
Proof.
  destruct (run_install_shape P w)
    as [(evs & Hlog & Hq)|(A & C & Hlog & HqA)].
  - exists evs. split; [done|]. intros pre cmd args cwd post ->.
    assert (is_captured (EGetExecOutput cmd args cwd) = false) as Hn; [|done].
    apply (proj1 (Forall_forall _ _) Hq). in_events.
  - eexists. split; [exact Hlog|].
    intros pre cmd args cwd post Heq bin target.
    rewrite app_assoc in Heq.
    apply quiet_prefix in Heq as [pre' ->]; [|by apply Forall_app;
      split; [|apply setup_events_quiet]|done].
    unfold setup_events, miseBinDir. fold bin. fold target.
    repeat split; in_events.
Qed.

Lemma mise_runs_only_after_install_witness :
  let P := sample_platform false (Ok None) good_dump in
  EAddPath "/home/runner/.local/share/mise/bin"
    ∈ take 18 (log (run P (fresh_world ∅)).2).
Proof.
  intros P.
  destruct (mise_runs_only_after_install P (fresh_world ∅))
    as (evs & Hlog & H).
  change (log (fresh_world ∅) ++ evs) with evs in Hlog.
  destruct (H (take 18 evs) "mise" ["--version"] "/work" (drop 19 evs))
    as (_ & _ & _ & Hadd).
  - rewrite <- Hlog. vm_compute. reflexivity.
  - rewrite Hlog. exact Hadd.
Defined.

(** ** The experimental flag *)

(** X15: when MISE_EXPERIMENTAL is absent or empty, the pre-install stage
    sets it to 1 only if the experimental input is exactly the string true;
    any other spelling (True, 1, yes, the empty string) gives 0. *)
Theorem experimental_flag_is_exact P w :
  truthy_opt (env w !! "MISE_EXPERIMENTAL") = false ->
  env (setEnvVarsPreInstall P w).2 !! "MISE_EXPERIMENTAL"
  = Some (if decide (getInput P "experimental" = "true") then "1" else "0").
Proof.
  intros Hunset. destruct (setEnvVarsPreInstall_env P w) as [_ ->].
  rewrite set_if_unset_same, !set_if_unset_other by done. rewrite Hunset.
  unfold getExperimental. cbv zeta.
  destruct (String.eqb_spec (getInput P "experimental") "true");
    by case_decide.
Qed.

Lemma experimental_flag_is_exact_witness :
  let P := with_input (sample_platform true (Ok None) good_dump)
             "experimental" "True" in
  env (setEnvVarsPreInstall P (fresh_world ∅)).2 !! "MISE_EXPERIMENTAL"
  = Some "0".
Proof.
  intros P.
  apply (experimental_flag_is_exact P (fresh_world ∅)). reflexivity.
Defined.

(** ** A run without the cache *)

Lemma run_preserves P (R : World -> World -> Prop) `{!PreOrder R} :
  preserves R (config_stages P) ->
  preserves R (cacheGate P) ->
  preserves R (after_cache P) ->
  (forall t, preserves R (run_handler t)) ->
  preserves R (run P).
Proof.
  intros Hc Hg Ha Hh. unfold run.
  refine (preserves_try_catch _ _ _ _ Hh).
  intros w. rewrite run_body_around_cache. revert w.
  change (preserves R (config_stages P ;;; cacheGate P ;;; after_cache P)).
  refine (preserves_bind _ _ _ Hc _). intros _.
  refine (preserves_bind _ _ _ Hg _). by intros _.
Qed.

Lemma no_cache_state_plain e : cache_event e = false -> no_cache_state e.
Proof. by destruct e. Qed.

(** X16: with the cache input false a run leaves nothing for the post
    step: the saved state is what it was, nothing is saved and the
    configuration files are not even hashed. *)
Theorem cache_disabled_saves_nothing P w :
  getBooleanInput P "cache" = Ok false ->
  saved (run P w).2 = saved w /\
  exists evs,
    log (run P w).2 = log w ++ evs /\
    (forall k v, ESaveState k v ∉ evs) /\
    (forall patterns, EHashFiles patterns ∉ evs).
Proof.
  intros Hcache.
  assert (forall w0, cacheGate P w0
                     = core.setOutput "cache-hit" (VBool false) w0) as Hgate.
  { intros w0. by rewrite cacheGate_run, Hcache. }
  split.
  - apply (run_preserves P (keeps saved)).
    + by apply config_keeps.
    + intros w0. by rewrite Hgate.
    + by apply after_cache_keeps.
    + intros t. by apply handler_keeps.
  - destruct (run_preserves P (logs_only no_cache_state)
                (config_logs P _ no_cache_state_plain)
                ltac:(intros w0; rewrite Hgate, setOutput_run;
                      exists [ESetOutput "cache-hit" (VBool false)];
                      by repeat constructor)
                (after_cache_logs P _ no_cache_state_plain)
                (handler_logs _ no_cache_state_plain) w)
      as (evs & Hlog & Hall).
    exists evs. split; [done|].
    split; intros; intros Hin;
      by apply (proj1 (Forall_forall _ _) Hall) in Hin.
Qed.

Lemma cache_disabled_saves_nothing_witness :
  let P := sample_platform false (Ok (Some "k")) good_dump in
  saved (run P (fresh_world ∅)).2 = ∅.
Proof.
  intros P.
  destruct (cache_disabled_saves_nothing P (fresh_world ∅)) as [Hsaved _];
    [reflexivity|exact Hsaved].
Defined.
